(** * fireci packaging descriptor (ci/fireci/setup.py)

    The descriptor is a Python module of two imports and three statements:

      import os
      from setuptools import find_packages, setup
      os.chdir(os.path.abspath(os.path.dirname(__file__)))
      requires = []
      setup(name=..., version=..., install_requires=[...],
            packages=find_packages(exclude=['tests']), entry_points={...})

    The module is embedded as state passing over a process state (current
    working directory, module globals, trace of external calls), run against
    a file system with symbolic links and search permissions.  The library
    functions it calls (posixpath, fnmatch, os.walk, setuptools.find_packages)
    and the path lookup behind [os.chdir] are embedded next to it, each
    following the library function's body. *)

From Stdlib Require Import Ascii.
From stdpp Require Import base list strings gmap.

(** ** Python [str] methods used by the libraries *)
Module Str.

(** [s.split(c)] for a one-character separator: always at least one piece. *)
Fixpoint split (c : ascii) (s : string) : list string :=
  match s with
  | "" => [""]
  | String a s' =>
      if Ascii.eqb a c then "" :: split c s'
      else match split c s' with
           | [] => [String a ""]
           | w :: ws => String a w :: ws
           end
  end.

(** [sep.join(pieces)] *)
Definition join (sep : string) (pieces : list string) : string :=
  String.concat sep pieces.

(** [s.startswith(p)] *)
Definition startswith (p s : string) : bool := String.prefix p s.

(** [s.endswith(c)] for a one-character suffix. *)
Fixpoint endswith (c : ascii) (s : string) : bool :=
  match s with
  | "" => false
  | String a s' =>
      match s' with
      | "" => Ascii.eqb a c
      | _ => endswith c s'
      end
  end.

(** [c in s] *)
Fixpoint contains (c : ascii) (s : string) : bool :=
  match s with
  | "" => false
  | String a s' => Ascii.eqb a c || contains c s'
  end.

(** [s.rfind(c) + 1]: the index just past the last [c], and [0] when [c]
    does not occur ([rfind] itself answers [-1] there). *)
Fixpoint rfind_succ (c : ascii) (s : string) : nat :=
  match s with
  | "" => 0
  | String a s' =>
      match rfind_succ c s' with
      | 0 => if Ascii.eqb a c then 1 else 0
      | S k => S (S k)
      end
  end.

(** The slices [s[:n]] and [s[n:]]. *)
Fixpoint take (n : nat) (s : string) : string :=
  match n, s with
  | S k, String a s' => String a (take k s')
  | _, _ => ""
  end.

Fixpoint drop (n : nat) (s : string) : string :=
  match n, s with
  | S k, String _ s' => drop k s'
  | _, _ => s
  end.

(** [s.rstrip(c)] *)
Fixpoint rstrip (c : ascii) (s : string) : string :=
  match s with
  | "" => ""
  | String a s' =>
      match rstrip c s' with
      | "" => if Ascii.eqb a c then "" else String a ""
      | r => String a r
      end
  end.

(** [s.lstrip(c)] *)
Fixpoint lstrip (c : ascii) (s : string) : string :=
  match s with
  | "" => ""
  | String a s' => if Ascii.eqb a c then lstrip c s' else s
  end.

(** [s.strip(c)] *)
Definition strip (c : ascii) (s : string) : string := rstrip c (lstrip c s).

(** [c * n] for a one-character string [c]. *)
Fixpoint mul (c : ascii) (n : nat) : string :=
  match n with
  | 0 => ""
  | S k => String c (mul c k)
  end.

(** [s.partition(c)]: text before the first [c], and the text after it when
    [c] occurs. *)
Fixpoint partition (c : ascii) (s : string) : string * option string :=
  match s with
  | "" => ("", None)
  | String a s' =>
      if Ascii.eqb a c then ("", Some s')
      else let '(h, t) := partition c s' in (String a h, t)
  end.

(** [a.lower()] for one ASCII character. *)
Definition lower_char (a : ascii) : ascii :=
  let n := nat_of_ascii a in
  if (65 <=? n)%nat && (n <=? 90)%nat then ascii_of_nat (n + 32) else a.

Definition is_nil {A} (l : list A) : bool :=
  match l with [] => true | _ => false end.

End Str.

(** ** posixpath *)
Module Posixpath.

Abbreviation sep := "/"%char.

(** [isabs(s)]: [s.startswith(sep)] *)
Definition isabs (s : string) : bool := Str.startswith "/" s.

(** [join(a, b)]: an absolute [b] discards [a]; a separator is inserted
    unless [a] is empty or already ends in one. *)
Definition join (a b : string) : string :=
  if Str.startswith "/" b then b
  else if String.eqb a "" || Str.endswith sep a then a +:+ b
  else a +:+ "/" +:+ b.

(** [dirname(p)]: everything up to the last separator; trailing separators
    are stripped from it unless it consists of separators only. *)
Definition dirname (p : string) : string :=
  let i := Str.rfind_succ sep p in
  let head := Str.take i p in
  if negb (String.eqb head "")
     && negb (String.eqb head (Str.mul sep (String.length head)))
  then Str.rstrip sep head
  else head.

(** [basename(p)]: what follows the last separator. *)
Definition basename (p : string) : string :=
  let i := Str.rfind_succ sep p in
  Str.drop i p.

(** A path that can name a regular file: its last component is a name,
    neither empty nor [.] nor [..]. *)
Definition names_file (p : string) : bool :=
  let b := basename p in
  negb (String.eqb b "") && negb (String.eqb b ".")
  && negb (String.eqb b "..").

(** POSIX keeps exactly two leading slashes apart; three or more count as
    one. *)
Definition initial_slashes (path : string) : nat :=
  if Str.startswith "/" path then
    if Str.startswith "//" path && negb (Str.startswith "///" path)
    then 2 else 1
  else 0.

(** One turn of the loop of [normpath] over the components. *)
Definition normpath_step (ini : nat) (new_comps : list string)
    (comp : string) : list string :=
  if String.eqb comp "" || String.eqb comp "." then new_comps
  else if negb (String.eqb comp "..")
          || (Nat.eqb ini 0 && Str.is_nil new_comps)
          || (negb (Str.is_nil new_comps)
              && String.eqb (List.last new_comps "") "..")
  then new_comps ++ [comp]
  else if negb (Str.is_nil new_comps) then removelast new_comps
  else new_comps.

Definition normpath (path : string) : string :=
  if String.eqb path "" then "."
  else
    let ini := initial_slashes path in
    let comps := fold_left (normpath_step ini) (Str.split sep path) [] in
    let joined := Str.join "/" comps in
    let joined :=
      if Nat.eqb ini 0 then joined else Str.mul sep ini +:+ joined in
    if String.eqb joined "" then "." else joined.

(** [abspath(path)], with the value of [os.getcwd()] made explicit. *)
Definition abspath (cwd path : string) : string :=
  normpath (if isabs path then path else join cwd path).

(** The components [normpath] is left with on an absolute path. *)
Definition components (path : string) : list string :=
  fold_left (normpath_step 1) (Str.split sep path) [].

(** A component that [normpath] keeps: non-empty, without separator. *)
Definition kept_component (comp : string) : Prop :=
  Str.contains sep comp = false /\ comp <> "".

(** A component that is a name: kept, and neither [.] nor [..]. *)
Definition name_component (comp : string) : Prop :=
  Str.contains sep comp = false /\ comp <> "" /\ comp <> "." /\ comp <> "..".

End Posixpath.

(** ** fnmatch *)
Module Fnmatch.

(** [fnmatchcase(name, pat)] for patterns made of literal characters, [*]
    (any run of characters) and [?] (any one character).  Bracket classes
    are not modelled: no pattern of the descriptor or of setuptools has
    one. *)
Fixpoint glob (pat : string) : string -> bool :=
  match pat with
  | "" => fun name => String.eqb name ""
  | String c pat' =>
      if Ascii.eqb c "*" then
        fix star (name : string) : bool :=
          glob pat' name
          || match name with
             | "" => false
             | String _ name' => star name'
             end
      else if Ascii.eqb c "?" then
        fun name =>
          match name with
          | "" => false
          | String _ name' => glob pat' name'
          end
      else
        fun name =>
          match name with
          | "" => false
          | String a name' => Ascii.eqb a c && glob pat' name'
          end
  end.

Definition fnmatchcase (name pat : string) : bool := glob pat name.

(** A pattern without any of the characters [fnmatch] treats specially. *)
Definition is_literal (pat : string) : bool :=
  negb (Str.contains "*" pat) && negb (Str.contains "?" pat)
  && negb (Str.contains "[" pat).

End Fnmatch.

(** ** The file system as the descriptor sees it *)

(** A directory entry as a walk sees it: a regular file, or a directory with
    its listing in the order [os.scandir] reports it.  A symbolic link to a
    directory is followed by the walk ([followlinks=True]) and so is listed
    as the directory it points to; that it is a link, and the path it holds,
    is recorded beside the tree (see [filesystem]), where the path lookup of
    the kernel reads it. *)
#[local] Unset Elimination Schemes.
Inductive node : Type :=
  | File (name : string)
  | Dir (name : string) (entries : list node).
#[local] Set Elimination Schemes.

Definition node_name (n : node) : string :=
  match n with
  | File name => name
  | Dir name _ => name
  end.

(** The names of the directories of a listing. *)
Definition dir_names (entries : list node) : list string :=
  flat_map (fun n => match n with
                     | File _ => []
                     | Dir d _ => [d]
                     end) entries.

(** A tree in which no directory lists two sub-directories of one name. *)
Fixpoint unique_dirs (n : node) : bool :=
  match n with
  | File _ => true
  | Dir _ entries =>
      bool_decide (NoDup (dir_names entries)) && forallb unique_dirs entries
  end.

(** What the kernel answers when it cannot follow a path. *)
Inductive errno : Type :=
  | ENOENT
  | ENOTDIR
  | EACCES
  | ELOOP.

(** The machine around the process: the tree below [/] as a walk sees it;
    the symbolic links, each with the place where it is (the names from the
    root down to the link) and the path it holds; the directories the
    process has no search permission for; and the distributions that can be
    imported besides the standard library. *)
Record filesystem : Type := {
  fs_tree : list node;
  fs_links : list (list string * string);
  fs_denied : list (list string);
  fs_modules : list string
}.

(** A tree alone stands for the machine without symbolic links, with every
    directory open, and with setuptools installed. *)
Definition plain (tree : list node) : filesystem :=
  {| fs_tree := tree; fs_links := []; fs_denied := [];
     fs_modules := ["setuptools"] |}.
#[warning="-uniform-inheritance"]
Coercion plain : list >-> filesystem.

Module Fs.

(** The listing of the sub-directory called [name], when there is one. *)
Fixpoint subdir (name : string) (entries : list node)
    : option (list node) :=
  match entries with
  | [] => None
  | File _ :: rest => subdir name rest
  | Dir d sub :: rest =>
      if String.eqb d name then Some sub else subdir name rest
  end.

(** Resolution of a list of directory names from a listing downwards. *)
Fixpoint resolve (entries : list node) (comps : list string)
    : option (list node) :=
  match comps with
  | [] => Some entries
  | c :: comps' =>
      match subdir c entries with
      | Some sub => resolve sub comps'
      | None => None
      end
  end.

(** Whether the listing has a regular file called [name]. *)
Definition has_file (name : string) (entries : list node) : bool :=
  existsb (fun n => match n with
                    | File f => String.eqb f name
                    | Dir _ _ => false
                    end) entries.

(** The path held by the symbolic link at place [loc], when there is one. *)
Definition link_at (fs : filesystem) (loc : list string) : option string :=
  snd <$> List.find (fun link => bool_decide (fst link = loc)) (fs_links fs).

(** Whether the process may search the directory at place [loc]. *)
Definition searchable (fs : filesystem) (loc : list string) : bool :=
  negb (bool_decide (loc ∈ fs_denied fs)).

(** The number of symbolic links one lookup follows at most. *)
Definition MAXSYMLINKS : nat := 40.

(** The outcome of a lookup: the place of the directory reached, as the
    names from the root, or an error. *)
Inductive lookup : Type :=
  | Reached (dir : list string)
  | Errno (e : errno).

(** The path lookup of the kernel, component by component from the
    directory at [here]: empty components and [.] stay, [..] goes to the
    parent (the root is its own parent), a symbolic link is replaced by the
    path it holds (from the root when that path is absolute, from the
    directory of the link otherwise), any other name has to be a directory
    of the current one. *)
Fixpoint namei (fs : filesystem) (links_left : nat)
    : list string -> list string -> lookup :=
  fix walk (here comps : list string) {struct comps} : lookup :=
    match comps with
    | [] => Reached here
    | c :: rest =>
        if String.eqb c "" || String.eqb c "." then walk here rest
        else if negb (searchable fs here) then Errno EACCES
        else if String.eqb c ".." then walk (removelast here) rest
        else
          match link_at fs (here ++ [c]) with
          | Some target =>
              if String.eqb target "" then Errno ENOENT
              else
                match links_left with
                | 0 => Errno ELOOP
                | S n =>
                    namei fs n
                      (if Posixpath.isabs target then [] else here)
                      (Str.split Posixpath.sep target ++ rest)
                end
          | None =>
              match resolve (fs_tree fs) here with
              | None => Errno ENOENT
              | Some listing =>
                  match subdir c listing with
                  | Some _ => walk (here ++ [c]) rest
                  | None =>
                      Errno (if has_file c listing then ENOTDIR else ENOENT)
                  end
              end
          end
    end.

(** The places a lookup can stand in: the root, and below a place every
    directory of it that is no symbolic link and that the process could look
    up by name. *)
Inductive physical (fs : filesystem) : list string -> Prop :=
  | physical_root : physical fs []
  | physical_step here c listing sub :
      physical fs here ->
      Posixpath.name_component c ->
      searchable fs here = true ->
      link_at fs (here ++ [c]) = None ->
      resolve (fs_tree fs) here = Some listing ->
      subdir c listing = Some sub ->
      physical fs (here ++ [c]).

(** The components that a lookup does not skip. *)
Definition steps (c : string) : bool :=
  negb (String.eqb c "" || String.eqb c ".").

(** The directory that [chdir(path)] enters.  The module hands over an
    absolute path whenever [os.getcwd()] is one; text without leading
    separator is read from the root as well. *)
Definition chdir (fs : filesystem) (path : string) : lookup :=
  if String.eqb path "" then Errno ENOENT
  else
    match namei fs MAXSYMLINKS [] (Str.split Posixpath.sep path) with
    | Reached dir => if searchable fs dir then Reached dir else Errno EACCES
    | Errno e => Errno e
    end.

(** The text [os.getcwd()] gives for the directory at a place. *)
Definition path_of (dir : list string) : string := "/" +:+ Str.join "/" dir.

(** The listing of the directory that [chdir(path)] enters. *)
Definition lookup_dir (fs : filesystem) (path : string)
    : option (list node) :=
  match chdir fs path with
  | Reached dir => resolve (fs_tree fs) dir
  | Errno _ => None
  end.

(** The directory in which the kernel finds the file that [file] names for
    a process working in [cwd0]: the lookup of everything up to the last
    separator of [file], in which the last component is a regular file. *)
Definition containing_directory (fs : filesystem) (cwd0 file : string)
    : option (list string) :=
  let head := Str.take (Str.rfind_succ Posixpath.sep file) file in
  match
    namei fs MAXSYMLINKS []
      (Str.split Posixpath.sep (Posixpath.join cwd0 head))
  with
  | Reached dir =>
      match resolve (fs_tree fs) dir with
      | Some listing =>
          if searchable fs dir && has_file (Posixpath.basename file) listing
          then Some dir else None
      | None => None
      end
  | Errno _ => None
  end.

(** A path that never steps back through a symbolic link: there is no link
    at all, or neither the working directory nor the path has a [..]. *)
Definition steps_plainly (fs : filesystem) (cwd0 file : string) : Prop :=
  fs_links fs = []
  \/ ((".." ∉ Str.split Posixpath.sep cwd0)
      /\ (".." ∉ Str.split Posixpath.sep file)).

End Fs.

(** ** setuptools.find_packages *)
Module Setuptools.

(** Patterns that [PackageFinder] excludes whatever the caller passes. *)
Definition ALWAYS_EXCLUDE : list string := ["ez_setup"; "*__pycache__"].

(** A filter built from patterns: calling it matches a name against every
    pattern, [in] asks for a pattern verbatim. *)
Definition filter_call (patterns : list string) (name : string) : bool :=
  existsb (Fnmatch.fnmatchcase name) patterns.

Definition filter_contains (patterns : list string) (item : string)
    : bool :=
  existsb (String.eqb item) patterns.

Definition is_init_py (n : node) : bool :=
  match n with
  | File f => String.eqb f "__init__.py"
  | Dir _ _ => false
  end.

(** [os.path.isfile(os.path.join(path, '__init__.py'))] *)
Definition looks_like_package (entries : list node) : bool :=
  existsb is_init_py entries.

(** The dotted name of the directory [dir] found at relative path [rel]:
    the relative path with separators replaced by dots. *)
Definition package_name (rel : list string) (dir : string) : string :=
  Str.join "." (rel ++ [dir]).

(** A directory that is kept as a package candidate: no dot in its own
    name, and an [__init__.py] inside. *)
Definition valid_package_dir (n : node) : bool :=
  match n with
  | File _ => false
  | Dir dir entries =>
      negb (Str.contains "." dir) && looks_like_package entries
  end.

(** The packages yielded while one listing is processed. *)
Definition yielded (exclude include : list string) (rel : list string)
    (entries : list node) : list string :=
  flat_map (fun n =>
    if valid_package_dir n then
      let package := package_name rel (node_name n) in
      if filter_call include package && negb (filter_call exclude package)
      then [package] else []
    else []) entries.

(** Whether the walk goes down into an entry of the listing. *)
Definition descends (exclude : list string) (rel : list string)
    (n : node) : bool :=
  valid_package_dir n
  && negb (let package := package_name rel (node_name n) in
           filter_contains exclude (package +:+ "*")
           || filter_contains exclude (package +:+ ".*")).

(** [_find_iter]: [os.walk] hands over one directory at a time, top down;
    the packages of its listing are yielded, then the walk continues in
    the sub-directories that were kept, in listing order.  [n] is the
    directory being listed and [rel] its path relative to [where]. *)
Fixpoint find_iter (exclude include : list string) (rel : list string)
    (n : node) {struct n} : list string :=
  match n with
  | File _ => []
  | Dir _ entries =>
      yielded exclude include rel entries
      ++ (fix below (ds : list node) : list string :=
            match ds with
            | [] => []
            | d :: ds' =>
                (if descends exclude rel d
                 then find_iter exclude include (rel ++ [node_name d]) d
                 else [])
                ++ below ds'
            end) entries
  end.

(** [find_packages(where='.', exclude=exclude)], [where] being the
    directory whose listing is [entries]. *)
Definition find_packages (exclude : list string) (entries : list node)
    : list string :=
  find_iter (ALWAYS_EXCLUDE ++ exclude) ["*"] [] (Dir "." entries).

(** Whether one of the dot-separated components of a package name matches
    one of the patterns. *)
Definition component_matches (patterns : list string) (package : string)
    : bool :=
  existsb (filter_call patterns) (Str.split "." package).

(** The importable packages of a tree: the same walk with nothing
    excluded. *)
Definition importable_packages (entries : list node) : list string :=
  find_iter [] ["*"] [] (Dir "." entries).

(** Whether [names] leads from a listing down through package directories:
    each name is a directory of the listing reached so far, without dot in
    its name and with an [__init__.py] inside. *)
Fixpoint is_package_path (entries : list node) (names : list string)
    : bool :=
  match names with
  | [] => true
  | name :: rest =>
      existsb (fun n =>
        match n with
        | File _ => false
        | Dir d sub =>
            String.eqb d name && valid_package_dir n
            && is_package_path sub rest
        end) entries
  end.

End Setuptools.

(** ** Requirement strings and entry-point strings of the packaging tool *)
Module Packaging.

(** The longest prefix of characters that satisfy [f], and the rest. *)
Fixpoint span (f : ascii -> bool) (s : string) : string * string :=
  match s with
  | "" => ("", "")
  | String a s' =>
      if f a then let '(h, t) := span f s' in (String a h, t)
      else ("", s)
  end.

Definition is_alnum (a : ascii) : bool :=
  let n := nat_of_ascii a in
  ((48 <=? n)%nat && (n <=? 57)%nat)
  || ((65 <=? n)%nat && (n <=? 90)%nat)
  || ((97 <=? n)%nat && (n <=? 122)%nat).

Definition is_name_punct (a : ascii) : bool :=
  Ascii.eqb a "-" || Ascii.eqb a "_" || Ascii.eqb a ".".

Definition is_name_char (a : ascii) : bool := is_alnum a || is_name_punct a.

Definition is_operator_char (a : ascii) : bool :=
  Ascii.eqb a "=" || Ascii.eqb a "<" || Ascii.eqb a ">"
  || Ascii.eqb a "!" || Ascii.eqb a "~".

(** The comparison operators of a version specifier. *)
Definition operators : list string :=
  ["=="; "!="; "<="; ">="; "<"; ">"; "~="; "==="].

(** A requirement: a distribution name and its version clauses, each an
    operator with a version. *)
Record requirement : Type := {
  req_name : string;
  req_specs : list (string * string)
}.

Definition parse_clause (clause : string) : option (string * string) :=
  let '(op, version) := span is_operator_char (Str.strip " " clause) in
  let version := Str.strip " " version in
  if existsb (String.eqb op) operators && negb (String.eqb version "")
  then Some (op, version) else None.

(** [name] followed by comma-separated clauses, as in [numpy==1.19.5] or
    [requests>=2,<3]. *)
Definition parse_requirement (s : string) : option requirement :=
  let '(name, rest) := span is_name_char (Str.strip " " s) in
  if String.eqb name "" then None
  else if String.eqb (Str.strip " " rest) ""
  then Some {| req_name := name; req_specs := [] |}
  else
    specs ← mapM parse_clause (Str.split "," rest);
    Some {| req_name := name; req_specs := specs |}.

(** An exact pin: one clause, operator [==], and no wildcard in the
    version (a trailing [.*] would make it a prefix match). *)
Definition is_exact_pin (r : requirement) : bool :=
  match req_specs r with
  | [(op, version)] => String.eqb op "==" && negb (Str.contains "*" version)
  | _ => false
  end.

(** The name and version of an exact pin. *)
Definition exact_pin (r : requirement) : option (string * string) :=
  match req_specs r with
  | [(_, version)] =>
      if is_exact_pin r then Some (req_name r, version) else None
  | _ => None
  end.

(** A dependency list read as exact pins, in order; [None] as soon as one
    entry is no requirement or no exact pin. *)
Definition exact_pins (declared : list string)
    : option (list (string * string)) :=
  reqs ← mapM parse_requirement declared;
  mapM exact_pin reqs.

(** The name under which the index compares distributions: lower case,
    runs of [-], [_] and [.] as one [-]. *)
Fixpoint normalize_name (s : string) : string :=
  match s with
  | "" => ""
  | String a s' =>
      if is_name_punct a then
        match s' with
        | "" => "-"
        | String b _ =>
            if is_name_punct b then normalize_name s'
            else String "-" (normalize_name s')
        end
      else String (Str.lower_char a) (normalize_name s')
  end.

(** An entry point [name = module:attr]. *)
Record entry_point : Type := {
  ep_name : string;
  ep_module : string;
  ep_attr : option string
}.

Definition parse_entry_point (s : string) : option entry_point :=
  match Str.partition "=" s with
  | (_, None) => None
  | (name, Some value) =>
      let '(module, attr) := Str.partition ":" value in
      Some {| ep_name := Str.strip " " name;
              ep_module := Str.strip " " module;
              ep_attr := Str.strip " " <$> attr |}
  end.

End Packaging.

(** ** The descriptor module *)

(** The Python values the descriptor builds; [PName] stands for a module or
    a function, by its qualified name. *)
#[local] Unset Elimination Schemes.
Inductive pyval : Type :=
  | PStr (s : string)
  | PList (items : list pyval)
  | PDict (items : list (string * pyval))
  | PName (qualified : string).
#[local] Set Elimination Schemes.

(** Calls that leave the module. *)
Inductive event : Type :=
  | Chdir (path : string)
  | Setup (kwargs : list (string * pyval)).

(** The state of the process that loads the module. *)
Record process : Type := {
  cwd : string;
  globals : gmap string pyval;
  trace : list event
}.

Inductive exn : Type :=
  | ModuleNotFoundError (name : string)
  | FileNotFoundError (path : string)
  | NotADirectoryError (path : string)
  | PermissionError (path : string)
  | OSError (path : string).

(** The exception [os] raises for an error of the kernel on [path];
    [OSError] itself is what too many symbolic links give. *)
Definition os_error (e : errno) (path : string) : exn :=
  match e with
  | ENOENT => FileNotFoundError path
  | ENOTDIR => NotADirectoryError path
  | EACCES => PermissionError path
  | ELOOP => OSError path
  end.

Inductive result (A : Type) : Type :=
  | Ok (a : A)
  | Raise (e : exn).
Arguments Ok {A} a.
Arguments Raise {A} e.

#[export] Instance result_ret : MRet result := fun A a => Ok a.
#[export] Instance result_bind : MBind result := fun A B f r =>
  match r with
  | Ok a => f a
  | Raise e => Raise e
  end.

Module Descriptor.

(** [os.chdir(path)]: the kernel looks the path up; afterwards
    [os.getcwd()] gives the place of the directory entered, not the text
    that was passed. *)
Definition os_chdir (root : filesystem) (path : string) (p : process)
    : result process :=
  match Fs.chdir root path with
  | Fs.Reached dir =>
      Ok {| cwd := Fs.path_of dir; globals := globals p;
            trace := trace p ++ [Chdir path] |}
  | Fs.Errno e => Raise (os_error e path)
  end.

(** A module-level assignment [var = v]. *)
Definition assign (var : string) (v : pyval) (p : process) : process :=
  {| cwd := cwd p; globals := <[var := v]> (globals p); trace := trace p |}.

(** [import os]: the standard library is always there. *)
Definition import_os (p : process) : result process :=
  Ok (assign "os" (PName "os") p).

(** [from setuptools import find_packages, setup]: setuptools has to be
    installed. *)
Definition from_setuptools_import (root : filesystem) (p : process)
    : result process :=
  if bool_decide ("setuptools" ∈ fs_modules root) then
    Ok (assign "setup" (PName "setuptools.setup")
          (assign "find_packages" (PName "setuptools.find_packages") p))
  else Raise (ModuleNotFoundError "setuptools").

(** The listing [os.walk('.')] starts from: the current directory.  The
    walk reports nothing when it cannot list it. *)
Definition listing_here (root : filesystem) (p : process) : list node :=
  default [] (Fs.lookup_dir root (cwd p)).

(** The keyword arguments of the call of [setup]. *)
Definition setup_kwargs (root : filesystem) (p : process)
    : list (string * pyval) :=
  [ ("name", PStr "fireci");
    ("version", PStr "0.1");
    ("install_requires",
      PList [ PStr "protobuf==3.19";
              PStr "click==7.0";
              PStr "google-cloud-storage==1.44.0";
              PStr "numpy==1.19.5";
              PStr "PyGithub==1.43.8";
              PStr "pystache==0.5.4";
              PStr "requests==2.23.0";
              PStr "PyYAML==6.0.0" ]);
    ("packages",
      PList (PStr <$> Setuptools.find_packages ["tests"]
                        (listing_here root p)));
    ("entry_points",
      PDict [ ("console_scripts",
                PList [PStr "fireci = fireci.main:cli"]) ]) ].

(** The call [setup(...)], recorded with its arguments. *)
Definition setup (root : filesystem) (p : process) : process :=
  {| cwd := cwd p; globals := globals p;
     trace := trace p ++ [Setup (setup_kwargs root p)] |}.

(** The process that starts loading the module from directory [cwd0]. *)
Definition start (cwd0 : string) : process :=
  {| cwd := cwd0; globals := ∅; trace := [] |}.

(** Loading the module: its two imports and its three statements in
    order.  [file] is the value of [__file__], [cwd0] the working directory
    of the caller. *)
Definition load (root : filesystem) (cwd0 file : string) : result process :=
  p ← import_os (start cwd0);
  p ← from_setuptools_import root p;
  p ← os_chdir root (Posixpath.abspath cwd0 (Posixpath.dirname file)) p;
  let p := assign "requires" (PList []) p in
  mret (setup root p).

(** The globals the two imports bind. *)
Definition imported : gmap string pyval :=
  <["setup" := PName "setuptools.setup"]>
    (<["find_packages" := PName "setuptools.find_packages"]>
       (<["os" := PName "os"]> ∅)).

(** Reading the call back. *)
Definition kwarg (key : string) (kwargs : list (string * pyval))
    : option pyval :=
  snd <$> List.find (fun kv => String.eqb (fst kv) key) kwargs.

Definition as_str (v : pyval) : option string :=
  match v with PStr s => Some s | _ => None end.

Definition as_str_list (v : pyval) : option (list string) :=
  match v with PList items => mapM as_str items | _ => None end.

(** The strings of the [install_requires] argument. *)
Definition install_requires (kwargs : list (string * pyval))
    : option (list string) :=
  kwarg "install_requires" kwargs ≫= as_str_list.

(** The strings of the [packages] argument. *)
Definition packages (kwargs : list (string * pyval))
    : option (list string) :=
  kwarg "packages" kwargs ≫= as_str_list.

(** The groups of the [entry_points] argument, each with its entries
    parsed. *)
Definition entry_points (kwargs : list (string * pyval))
    : option (list (string * list Packaging.entry_point)) :=
  v ← kwarg "entry_points" kwargs;
  match v with
  | PDict groups =>
      mapM (fun g : string * pyval =>
              lines ← as_str_list (snd g);
              eps ← mapM Packaging.parse_entry_point lines;
              Some (fst g, eps)) groups
  | _ => None
  end.

(** The [Setup] calls of a trace. *)
Definition setup_calls (t : list event) : list (list (string * pyval)) :=
  flat_map (fun e => match e with Setup kw => [kw] | Chdir _ => [] end) t.

End Descriptor.

(** ** Two listings of one tree

    [os.scandir] reports the entries of a directory in no particular order.
    Two listings show the same tree when, directory by directory, one is a
    rearrangement of the other. *)
Inductive relisted : node -> node -> Prop :=
  | relisted_file name : relisted (File name) (File name)
  | relisted_dir name es es' :
      relisted_entries es es' -> relisted (Dir name es) (Dir name es')
with relisted_entries : list node -> list node -> Prop :=
  | relisted_nil : relisted_entries [] []
  | relisted_skip n n' es es' :
      relisted n n' -> relisted_entries es es' ->
      relisted_entries (n :: es) (n' :: es')
  | relisted_swap n m es : relisted_entries (n :: m :: es) (m :: n :: es)
  | relisted_trans es1 es2 es3 :
      relisted_entries es1 es2 -> relisted_entries es2 es3 ->
      relisted_entries es1 es3.

(** ** Sample trees *)
Module Sample.

Definition init_py : node := File "__init__.py".

(** The packages [a], [a.b], [tests] and [tests.unit]. *)
Definition tree_with_tests : list node :=
  [ Dir "a" [init_py; Dir "b" [init_py]];
    File "setup.py";
    Dir "tests" [init_py; Dir "unit" [init_py]] ].

(** The same tree listed in another order. *)
Definition tree_with_tests_relisted : list node :=
  [ Dir "tests" [Dir "unit" [init_py]; init_py];
    Dir "a" [init_py; Dir "b" [init_py]];
    File "setup.py" ].

(** A [tests] directory at the top and another one inside package [a]. *)
Definition tree_nested_tests : list node :=
  [ Dir "a" [init_py; Dir "tests" [init_py]];
    Dir "tests" [init_py] ].

(** A project directory without any package, at [/work/fireci]. *)
Definition root_without_packages : list node :=
  [ Dir "work" [ Dir "fireci" [ File "setup.py"; Dir "docs" [File "a.md"] ] ] ].

(** The project of the descriptor at [/repo/ci/fireci]. *)
Definition root_with_project : list node :=
  [ Dir "repo"
      [ Dir "ci"
          [ Dir "fireci"
              [ Dir "fireci" [init_py; File "main.py"];
                File "setup.py";
                Dir "tests" [init_py] ] ] ] ].

(** A project at [/v/proj], and beside it a directory [/v/other] with two
    symbolic links: [t] to the package directory [/v/proj/pkg], and [p] to
    the project directory, written relative to [/v/other]. *)
Definition root_with_link : filesystem :=
  {| fs_tree :=
       [ Dir "v"
           [ Dir "proj" [File "setup.py"; Dir "pkg" [init_py]];
             Dir "other"
               [ Dir "t" [init_py];
                 Dir "p" [File "setup.py"; Dir "pkg" [init_py]] ] ] ];
     fs_links := [ (["v"; "other"; "t"], "/v/proj/pkg");
                   (["v"; "other"; "p"], "../proj") ];
     fs_denied := [];
     fs_modules := ["setuptools"] |}.

End Sample.

(** * Properties *)

(** ** The library functions on small inputs *)

Example dirname_examples :
  Posixpath.dirname "ci/fireci/setup.py" = "ci/fireci"
  /\ Posixpath.dirname "setup.py" = ""
  /\ Posixpath.dirname "/setup.py" = "/"
  /\ Posixpath.dirname "ci//setup.py" = "ci".
Proof. repeat split. Qed.

Example normpath_examples :
  Posixpath.normpath "/a/../../b/./c//" = "/b/c"
  /\ Posixpath.normpath "//a" = "//a"
  /\ Posixpath.normpath "///a" = "/a"
  /\ Posixpath.normpath "a/../.." = ".."
  /\ Posixpath.normpath "" = ".".
Proof. repeat split. Qed.

Example abspath_examples :
  Posixpath.abspath "/repo" "ci/fireci" = "/repo/ci/fireci"
  /\ Posixpath.abspath "/repo/ci/fireci" "" = "/repo/ci/fireci"
  /\ Posixpath.abspath "/repo" "/tmp/x/.." = "/tmp".
Proof. repeat split. Qed.

Example fnmatchcase_examples :
  Fnmatch.fnmatchcase "tests" "tests" = true
  /\ Fnmatch.fnmatchcase "tests.unit" "tests" = false
  /\ Fnmatch.fnmatchcase "tests.unit" "tests.*" = true
  /\ Fnmatch.fnmatchcase "a.__pycache__" "*__pycache__" = true.
Proof. repeat split. Qed.

Example find_packages_examples :
  Setuptools.find_packages ["tests"] Sample.tree_with_tests
    = ["a"; "a.b"; "tests.unit"]
  /\ Setuptools.find_packages ["tests"; "tests.*"] Sample.tree_with_tests
    = ["a"; "a.b"]
  /\ Setuptools.importable_packages Sample.tree_with_tests
    = ["a"; "tests"; "a.b"; "tests.unit"].
Proof. repeat split. Qed.

(** Loading from a directory that is not there fails in [os.chdir]; so does
    loading when a regular file stands where the directory should be, and
    loading without setuptools fails in the import. *)
Example load_without_directory :
  Descriptor.load Sample.root_with_project "/repo" "nowhere/setup.py"
  = Raise (FileNotFoundError "/repo/nowhere").
Proof. reflexivity. Qed.

Example load_through_a_file :
  Descriptor.load Sample.root_with_project "/repo/ci/fireci" "setup.py/x.py"
  = Raise (NotADirectoryError "/repo/ci/fireci/setup.py").
Proof. reflexivity. Qed.

Example load_without_setuptools :
  Descriptor.load
    {| fs_tree := Sample.root_with_project; fs_links := [];
       fs_denied := []; fs_modules := [] |}
    "/repo" "ci/fireci/setup.py"
  = Raise (ModuleNotFoundError "setuptools").
Proof. reflexivity. Qed.

(** [os.getcwd()] after the load is the place of the directory, whatever
    the text that was passed to [os.chdir]. *)
Example load_through_link :
  cwd <$> match Descriptor.load Sample.root_with_link "/v/other"
                  "t/__init__.py" with
          | Ok p => Some p
          | Raise _ => None
          end
  = Some "/v/proj/pkg".
Proof. reflexivity. Qed.

(** ** The arguments of [setup] *)

Section SetupArguments.
Variable root : list node.
Variable p : process.

Import Descriptor Packaging.

(** C3: the [install_requires] argument of [setup] is the list of exactly
    these eight requirement strings, whatever the tree and the process
    state. *)
Theorem install_requires_eight_pins :
  install_requires (setup_kwargs root p)
  = Some [ "protobuf==3.19"; "click==7.0"; "google-cloud-storage==1.44.0";
           "numpy==1.19.5"; "PyGithub==1.43.8"; "pystache==0.5.4";
           "requests==2.23.0"; "PyYAML==6.0.0" ].
Proof. reflexivity. Qed.

(** C4: the [entry_points] argument has the single group
    [console_scripts], with the single entry whose command name is
    [fireci], module [fireci.main] and callable [cli]. *)
Theorem entry_points_single_command :
  entry_points (setup_kwargs root p)
  = Some [ ("console_scripts",
             [ {| ep_name := "fireci";
                  ep_module := "fireci.main";
                  ep_attr := Some "cli" |} ]) ].
Proof. reflexivity. Qed.

(** C5: every declared requirement parses to one [==] clause with a single
    version, and read as (name, version) pairs the list handed to [setup]
    is the declared one, in the declared order. *)
Theorem install_requires_exact_pins_verbatim :
  exists declared reqs,
    kwarg "install_requires" (setup_kwargs root p)
      = Some (PList (PStr <$> declared))
    /\ mapM parse_requirement declared = Some reqs
    /\ Forall (fun r => exists version,
                 req_specs r = [("==", version)]
                 /\ Str.contains "*" version = false) reqs
    /\ exact_pins declared
       = Some [ ("protobuf", "3.19"); ("click", "7.0");
                ("google-cloud-storage", "1.44.0"); ("numpy", "1.19.5");
                ("PyGithub", "1.43.8"); ("pystache", "0.5.4");
                ("requests", "2.23.0"); ("PyYAML", "6.0.0") ].
Proof.
  exists [ "protobuf==3.19"; "click==7.0"; "google-cloud-storage==1.44.0";
           "numpy==1.19.5"; "PyGithub==1.43.8"; "pystache==0.5.4";
           "requests==2.23.0"; "PyYAML==6.0.0" ].
  eexists.
  split; [reflexivity|].
  split; [vm_compute; reflexivity|].
  split; [|reflexivity].
  repeat (apply Forall_cons; split; [eexists; split; reflexivity|]).
  apply Forall_nil_2.
Qed.

(** C6: no distribution name occurs twice among the declared
    requirements, neither as written nor after the index's name
    normalisation. *)
Theorem install_requires_names_unique :
  exists declared reqs,
    install_requires (setup_kwargs root p) = Some declared
    /\ mapM parse_requirement declared = Some reqs
    /\ length reqs = 8
    /\ NoDup (req_name <$> reqs)
    /\ NoDup (normalize_name <$> (req_name <$> reqs)).
Proof.
  eexists; eexists.
  split; [reflexivity|].
  split; [vm_compute; reflexivity|].
  split; [reflexivity|].
  split; apply (bool_decide_unpack _); vm_compute; exact I.
Qed.

(** C10: binding [requires] (to the empty list or to anything else) leaves
    the call of [setup] as it is, and the call has exactly the keywords
    [name], [version], [install_requires], [packages] and
    [entry_points]. *)
Theorem requires_unused_by_setup (v : pyval) :
  globals (assign "requires" v p) !! "requires" = Some v
  /\ setup_kwargs root (assign "requires" v p) = setup_kwargs root p
  /\ trace (setup root (assign "requires" v p))
     = trace p ++ [Setup (setup_kwargs root p)]
  /\ (setup_kwargs root p).*1
     = ["name"; "version"; "install_requires"; "packages"; "entry_points"].
Proof.
  split; [apply lookup_insert_eq|].
  split; [reflexivity|].
  split; reflexivity.
Qed.

End SetupArguments.

(** ** Package discovery *)

(** Induction over a tree, with the property available for every entry of a
    directory. *)
Lemma node_forall_ind (P : node -> Prop) :
  (forall name, P (File name)) ->
  (forall name entries, Forall P entries -> P (Dir name entries)) ->
  forall n, P n.
Proof.
  intros HFile HDir.
  fix IH 1. intros [name|name entries].
  - apply HFile.
  - apply HDir. induction entries as [|e entries IHentries].
    + constructor.
    + constructor; [apply IH | apply IHentries].
Qed.

Section Walk.
Import Setuptools.

(** The walk below a directory, spelled with [flat_map]. *)
Lemma find_iter_Dir exclude include rel name entries :
  find_iter exclude include rel (Dir name entries)
  = yielded exclude include rel entries
    ++ flat_map (fun d =>
         if descends exclude rel d
         then find_iter exclude include (rel ++ [node_name d]) d
         else []) entries.
Proof. reflexivity. Qed.

Lemma filter_call_nil name : filter_call [] name = false.
Proof. reflexivity. Qed.

(** An exclusion list that never stops the walk early: none of its
    patterns is a package name followed by [*] or [.*]. *)
Variable exclude : list string.
Hypothesis exclude_never_prunes :
  forall package,
    filter_contains exclude (package +:+ "*") = false
    /\ filter_contains exclude (package +:+ ".*") = false.

Let kept (package : string) : Prop := filter_call exclude package = false.

Lemma descends_without_pruning rel d :
  descends exclude rel d = descends [] rel d.
Proof.
  unfold descends.
  destruct (exclude_never_prunes (package_name rel (node_name d)))
    as [-> ->].
  reflexivity.
Qed.

Lemma yielded_filter include rel entries :
  yielded exclude include rel entries
  = filter kept (yielded [] include rel entries).
Proof.
  unfold yielded.
  induction entries as [|n ns IH]; [reflexivity|].
  cbn [flat_map]. rewrite filter_app, <- IH. f_equal.
  destruct (valid_package_dir n); [|reflexivity].
  rewrite filter_call_nil.
  destruct (filter_call include _); simpl; [|reflexivity].
  destruct (filter_call exclude _) eqn:Hex; simpl.
  - rewrite filter_cons_False; [reflexivity|].
    unfold kept. rewrite Hex. discriminate.
  - rewrite filter_cons_True; [reflexivity|]. exact Hex.
Qed.

(** Excluding by pattern is filtering the importable packages, order
    kept. *)
Lemma find_iter_filter include n :
  forall rel,
    find_iter exclude include rel n
    = filter kept (find_iter [] include rel n).
Proof.
  induction n as [name|name entries IH] using node_forall_ind; intros rel.
  - reflexivity.
  - rewrite !find_iter_Dir, filter_app, <- yielded_filter. f_equal.
    induction IH as [|d ds Hd _ IHds]; [reflexivity|].
    cbn [flat_map].
    rewrite filter_app, <- IHds, descends_without_pruning. f_equal.
    destruct (descends [] rel d); [apply Hd | reflexivity].
Qed.

End Walk.

(** *** The exclusion list of the descriptor *)

Lemma endswith_app c s t :
  t <> "" -> Str.endswith c (s +:+ t) = Str.endswith c t.
Proof.
  intros Ht. induction s as [|a s IH]; [reflexivity|].
  change (String a s +:+ t) with (String a (s +:+ t)).
  cbn [Str.endswith].
  destruct (s +:+ t) eqn:Hst; [|exact IH].
  destruct s; [simpl in Hst; contradiction | discriminate].
Qed.

Lemma not_eqb_without_suffix c s t pat :
  t <> "" -> Str.endswith c t = true -> Str.endswith c pat = false ->
  String.eqb (s +:+ t) pat = false.
Proof.
  intros Ht Hc Hpat. apply String.eqb_neq. intros <-.
  rewrite endswith_app in Hpat by exact Ht. congruence.
Qed.

(** With [exclude=['tests']] the walk is never stopped early. *)
Lemma descriptor_exclude_never_prunes package :
  let exclude := Setuptools.ALWAYS_EXCLUDE ++ ["tests"] in
  Setuptools.filter_contains exclude (package +:+ "*") = false
  /\ Setuptools.filter_contains exclude (package +:+ ".*") = false.
Proof.
  split; cbn [Setuptools.filter_contains Setuptools.ALWAYS_EXCLUDE app existsb];
    rewrite !(not_eqb_without_suffix "*") by (reflexivity || discriminate);
    reflexivity.
Qed.

(** What the descriptor discovers is what is importable, minus the names
    that match [ez_setup], [*__pycache__] or [tests] as a whole. *)
Lemma find_packages_tests_filter entries :
  Setuptools.find_packages ["tests"] entries
  = filter (fun package =>
              Setuptools.filter_call (Setuptools.ALWAYS_EXCLUDE ++ ["tests"])
                package = false)
      (Setuptools.importable_packages entries).
Proof.
  unfold Setuptools.find_packages, Setuptools.importable_packages.
  apply find_iter_filter. exact descriptor_exclude_never_prunes.
Qed.

Lemma find_packages_tests_elem entries package :
  package ∈ Setuptools.find_packages ["tests"] entries <->
  Setuptools.filter_call (Setuptools.ALWAYS_EXCLUDE ++ ["tests"]) package
    = false
  /\ package ∈ Setuptools.importable_packages entries.
Proof. now rewrite find_packages_tests_filter, list_elem_of_filter. Qed.

(** C1, as the code has it: for every tree whose importable packages are
    [a], [a.b], [tests] and [tests.unit], discovery with [exclude=['tests']]
    returns the set of [a], [a.b] and [tests.unit]; only the package named
    [tests] itself is left out. *)
Theorem discovery_drops_only_tests entries :
  list_to_set (Setuptools.importable_packages entries)
    =@{gset string} {[ "a"; "a.b"; "tests"; "tests.unit" ]} ->
  list_to_set (Setuptools.find_packages ["tests"] entries)
    =@{gset string} {[ "a"; "a.b"; "tests.unit" ]}.
Proof.
  intros Himp. apply set_eq. intros package.
  rewrite elem_of_list_to_set, find_packages_tests_elem.
  rewrite <- (elem_of_list_to_set (C := gset string)), Himp.
  split.
  - intros [Hkept Hin]. set_unfold in Hin.
    destruct Hin as [[[-> | ->] | ->] | ->];
      first [ vm_compute in Hkept; discriminate | set_solver ].
  - intros Hin. set_unfold in Hin.
    destruct Hin as [[-> | ->] | ->]; (split; [reflexivity | set_solver]).
Qed.

(** The sample tree has exactly the four packages and [tests.unit] is
    discovered in it. *)
Lemma discovery_drops_only_tests_witness :
  list_to_set (Setuptools.find_packages ["tests"] Sample.tree_with_tests)
    =@{gset string} {[ "a"; "a.b"; "tests.unit" ]}.
Proof.
  apply (discovery_drops_only_tests Sample.tree_with_tests).
  vm_compute Setuptools.importable_packages. set_solver.
Defined.

(** C1 as stated fails: the sample tree has exactly the packages [a],
    [a.b], [tests] and [tests.unit], and discovery returns [tests.unit]
    besides [a] and [a.b]. *)
Lemma discovery_returns_tests_unit :
  ~ (forall entries,
       list_to_set (Setuptools.importable_packages entries)
         =@{gset string} {[ "a"; "a.b"; "tests"; "tests.unit" ]} ->
       list_to_set (Setuptools.find_packages ["tests"] entries)
         =@{gset string} {[ "a"; "a.b" ]}).
Proof.
  intros Hclaim.
  assert (Himp : list_to_set
            (Setuptools.importable_packages Sample.tree_with_tests)
            =@{gset string} {[ "a"; "a.b"; "tests"; "tests.unit" ]}).
  { vm_compute Setuptools.importable_packages. set_solver. }
  specialize (Hclaim Sample.tree_with_tests Himp).
  assert (Hin : "tests.unit" ∈@{gset string}
            list_to_set (Setuptools.find_packages ["tests"]
                           Sample.tree_with_tests)).
  { vm_compute Setuptools.find_packages. set_solver. }
  rewrite Hclaim in Hin. set_solver.
Qed.

(** C2, as the code has it: whatever the tree, no discovered package is
    named [tests], because the pattern is matched against the whole dotted
    name; names that merely have [tests] as one component are not
    concerned. *)
Theorem discovery_never_returns_tests entries package :
  package ∈ Setuptools.find_packages ["tests"] entries ->
  package <> "tests" /\ Fnmatch.fnmatchcase package "tests" = false.
Proof.
  intros [Hkept _]%find_packages_tests_elem.
  cbn [Setuptools.filter_call Setuptools.ALWAYS_EXCLUDE app existsb] in Hkept.
  apply orb_false_iff in Hkept as [_ Hkept].
  apply orb_false_iff in Hkept as [_ Hkept].
  apply orb_false_iff in Hkept as [Hkept _].
  split; [|exact Hkept].
  intros ->. vm_compute in Hkept. discriminate.
Qed.

(** [tests.unit] is discovered in the sample tree, and is not [tests]. *)
Lemma discovery_never_returns_tests_witness :
  "tests.unit" <> "tests" /\ Fnmatch.fnmatchcase "tests.unit" "tests" = false.
Proof.
  apply (discovery_never_returns_tests Sample.tree_with_tests "tests.unit").
  vm_compute Setuptools.find_packages. set_solver.
Defined.

(** C2 as stated fails: in a tree with a [tests] directory, the package
    [a.tests] is discovered, and its second component matches the
    pattern. *)
Lemma discovery_returns_tests_component :
  ~ (forall entries,
       is_Some (Fs.subdir "tests" entries) ->
       forall package,
         package ∈ Setuptools.find_packages ["tests"] entries ->
         package <> "tests"
         /\ Setuptools.component_matches ["tests"] package = false).
Proof.
  intros Hclaim.
  assert (Hsub : is_Some (Fs.subdir "tests" Sample.tree_nested_tests)).
  { eexists. reflexivity. }
  assert (Hin : "a.tests"
            ∈ Setuptools.find_packages ["tests"] Sample.tree_nested_tests).
  { apply list_elem_of_In. vm_compute. auto. }
  destruct (Hclaim _ Hsub _ Hin) as [_ Hcomp].
  vm_compute in Hcomp. discriminate.
Qed.

(** *** Discovery does not depend on the listing order *)

Scheme relisted_mut := Induction for relisted Sort Prop
  with relisted_entries_mut := Induction for relisted_entries Sort Prop.
Combined Scheme relisted_mutind from relisted_mut, relisted_entries_mut.

Section Relisting.
Import Setuptools.

Variables exclude include : list string.

(** What the walk reads of one entry, and what it reads of a listing. *)
Let same_entry (n n' : node) : Prop :=
  node_name n = node_name n'
  /\ is_init_py n = is_init_py n'
  /\ valid_package_dir n = valid_package_dir n'
  /\ forall rel,
       find_iter exclude include rel n ≡ₚ find_iter exclude include rel n'.

Let below (rel : list string) (d : node) : list string :=
  if descends exclude rel d
  then find_iter exclude include (rel ++ [node_name d]) d
  else [].

Let same_listing (es es' : list node) : Prop :=
  looks_like_package es = looks_like_package es'
  /\ forall rel,
       yielded exclude include rel es ≡ₚ yielded exclude include rel es'
       /\ flat_map (below rel) es ≡ₚ flat_map (below rel) es'.

Lemma relisted_same :
  (forall n n', relisted n n' -> same_entry n n')
  /\ (forall es es', relisted_entries es es' -> same_listing es es').
Proof.
  apply relisted_mutind; unfold same_entry, same_listing.
  - intros name. repeat split; reflexivity.
  - intros name es es' _ [Hlooks Hwalk].
    split; [reflexivity|]. split; [reflexivity|].
    split; [cbn [valid_package_dir]; now rewrite Hlooks|].
    intros rel. rewrite !find_iter_Dir.
    destruct (Hwalk rel) as [Hy Hb]. now apply Permutation_app.
  - split; [reflexivity|]. intros rel. split; reflexivity.
  - intros n n' es es' _ (Hname & Hinit & Hvalid & Hfind) _ [Hlooks Hwalk].
    split.
    + unfold looks_like_package in *. cbn [existsb].
      now rewrite Hinit, Hlooks.
    + intros rel. destruct (Hwalk rel) as [Hy Hb].
      unfold yielded, below, descends in *. cbn [flat_map].
      rewrite Hname, Hvalid. split.
      * now apply Permutation_app.
      * apply Permutation_app; [|exact Hb].
        destruct (_ && _); [apply Hfind | reflexivity].
  - intros n m es. split.
    + unfold looks_like_package. cbn [existsb].
      now rewrite !orb_assoc, (orb_comm (is_init_py m)).
    + intros rel. unfold yielded. cbn [flat_map].
      split; rewrite !app_assoc; apply Permutation_app_tail,
        Permutation_app_comm.
  - intros es1 es2 es3 _ [Hl12 H12] _ [Hl23 H23].
    split; [congruence|]. intros rel.
    destruct (H12 rel), (H23 rel). split; etrans; eassumption.
Qed.

Lemma find_iter_relisted es es' rel name :
  relisted_entries es es' ->
  find_iter exclude include rel (Dir name es)
  ≡ₚ find_iter exclude include rel (Dir name es').
Proof.
  intros [_ Hwalk]%relisted_same. rewrite !find_iter_Dir.
  destruct (Hwalk rel). now apply Permutation_app.
Qed.

End Relisting.

(** C7: two listings of one unchanged tree, whatever the order in which
    each directory is reported, give the same packages: as a multiset, and so
    as a set. *)
Theorem discovery_deterministic es es' :
  relisted_entries es es' ->
  Setuptools.find_packages ["tests"] es
    ≡ₚ Setuptools.find_packages ["tests"] es'
  /\ list_to_set (Setuptools.find_packages ["tests"] es)
     =@{gset string} list_to_set (Setuptools.find_packages ["tests"] es').
Proof.
  intros Hsame.
  assert (Hperm : Setuptools.find_packages ["tests"] es
                  ≡ₚ Setuptools.find_packages ["tests"] es').
  { now apply find_iter_relisted. }
  split; [exact Hperm|].
  apply set_eq. intros package.
  now rewrite !elem_of_list_to_set, Hperm.
Qed.

Lemma relisted_refl n : relisted n n.
Proof.
  induction n as [name|name entries IH] using node_forall_ind.
  - constructor.
  - constructor. induction IH; constructor; assumption.
Qed.

Lemma relisted_entries_refl es : relisted_entries es es.
Proof. induction es; constructor; [apply relisted_refl | assumption]. Qed.

(** The sample tree and its other listing. *)
Lemma discovery_deterministic_witness :
  Setuptools.find_packages ["tests"] Sample.tree_with_tests
    ≡ₚ Setuptools.find_packages ["tests"] Sample.tree_with_tests_relisted
  /\ list_to_set (Setuptools.find_packages ["tests"] Sample.tree_with_tests)
     =@{gset string}
     list_to_set
       (Setuptools.find_packages ["tests"] Sample.tree_with_tests_relisted).
Proof.
  apply (discovery_deterministic Sample.tree_with_tests
           Sample.tree_with_tests_relisted).
  unfold Sample.tree_with_tests, Sample.tree_with_tests_relisted.
  eapply relisted_trans.
  { apply relisted_skip; [apply relisted_refl | apply relisted_swap]. }
  eapply relisted_trans; [apply relisted_swap|].
  apply relisted_skip; [|apply relisted_entries_refl].
  apply relisted_dir, relisted_swap.
Defined.

(** ** Paths *)

(** *** Strings *)

Lemma app_cons a s t : String a s +:+ t = String a (s +:+ t).
Proof. reflexivity. Qed.

Lemma app_nil_r s : s +:+ "" = s.
Proof. induction s as [|a s IH]; [reflexivity|]. now rewrite app_cons, IH. Qed.

Lemma app_assoc s t u : (s +:+ t) +:+ u = s +:+ t +:+ u.
Proof. induction s as [|a s IH]; [reflexivity|]. now rewrite !app_cons, IH. Qed.

Lemma app_length s t :
  String.length (s +:+ t) = String.length s + String.length t.
Proof.
  induction s as [|a s IH]; [reflexivity|].
  rewrite app_cons. simpl. now rewrite IH.
Qed.

Lemma split_nonempty c s : Str.split c s <> [].
Proof.
  destruct s as [|a s]; simpl; [discriminate|].
  destruct (Ascii.eqb a c); [discriminate|].
  destruct (Str.split c s); discriminate.
Qed.

(** Splitting at a separator splits the list of pieces. *)
Lemma split_app_sep c x y :
  Str.split c (x +:+ String c y) = Str.split c x ++ Str.split c y.
Proof.
  induction x as [|a x IH].
  - change ("" +:+ String c y) with (String c y). simpl.
    now rewrite Ascii.eqb_refl.
  - rewrite app_cons. simpl. rewrite IH.
    destruct (Ascii.eqb a c); [reflexivity|].
    destruct (Str.split c x) eqn:Hx; [|reflexivity].
    now apply split_nonempty in Hx.
Qed.

Lemma split_without_sep c b : Str.contains c b = false -> Str.split c b = [b].
Proof.
  induction b as [|a b IH]; [reflexivity|]. simpl.
  intros [Ha Hb]%orb_false_iff. now rewrite Ha, (IH Hb).
Qed.

Lemma split_pieces_without_sep c s :
  Forall (fun piece => Str.contains c piece = false) (Str.split c s).
Proof.
  induction s as [|a s IH]; simpl.
  - repeat constructor.
  - destruct (Ascii.eqb a c) eqn:Ha; [constructor; [reflexivity | exact IH]|].
    destruct (Str.split c s) as [|w ws];
      [repeat constructor; simpl; now rewrite Ha|].
    inversion IH as [|? ? Hw Hws]; subst.
    constructor; [simpl; now rewrite Ha | exact Hws].
Qed.

Lemma endswith_without c s :
  Str.contains c s = false -> Str.endswith c s = false.
Proof.
  induction s as [|a s IH]; [reflexivity|]. simpl.
  intros [Ha Hs]%orb_false_iff. destruct s; [exact Ha | now apply IH].
Qed.

Lemma endswith_snoc c s : Str.endswith c (s +:+ String c "") = true.
Proof.
  rewrite endswith_app by discriminate. simpl. apply Ascii.eqb_refl.
Qed.

(** A string that ends with [c] is some string followed by [c]. *)
Lemma endswith_inv c s :
  Str.endswith c s = true -> exists s0, s = s0 +:+ String c "".
Proof.
  induction s as [|a s IH]; [discriminate|]. simpl.
  destruct s as [|b s].
  - intros ->%Ascii.eqb_eq. now exists "".
  - intros [s0 Hs0]%IH. exists (String a s0). now rewrite app_cons, <- Hs0.
Qed.

Lemma mul_snoc c n : Str.mul c (S n) = Str.mul c n +:+ String c "".
Proof.
  induction n as [|n IH]; [reflexivity|].
  simpl in *. now rewrite app_cons, <- IH.
Qed.

Lemma mul_length c n : String.length (Str.mul c n) = n.
Proof. induction n as [|n IH]; simpl; congruence. Qed.

(** *** [rfind], slices and [rstrip] *)

Lemma rfind_succ_without c b :
  Str.contains c b = false -> Str.rfind_succ c b = 0.
Proof.
  induction b as [|a b IH]; [reflexivity|]. simpl.
  intros [Ha Hb]%orb_false_iff. now rewrite (IH Hb), Ha.
Qed.

Lemma rfind_succ_app_sep c h b :
  Str.contains c b = false ->
  Str.rfind_succ c (h +:+ String c b) = S (String.length h).
Proof.
  intros Hb. induction h as [|a h IH].
  - change ("" +:+ String c b) with (String c b). simpl.
    now rewrite (rfind_succ_without _ _ Hb), Ascii.eqb_refl.
  - rewrite app_cons. simpl. now rewrite IH.
Qed.

Lemma take_app h b : Str.take (String.length h) (h +:+ b) = h.
Proof.
  induction h as [|a h IH]; [now destruct b|].
  rewrite app_cons. simpl. now rewrite IH.
Qed.

Lemma drop_app h b : Str.drop (String.length h) (h +:+ b) = b.
Proof. induction h as [|a h IH]; [now destruct b|]. now rewrite app_cons. Qed.

Lemma rstrip_snoc c s : Str.rstrip c (s +:+ String c "") = Str.rstrip c s.
Proof.
  induction s as [|a s IH].
  - simpl. now rewrite Ascii.eqb_refl.
  - rewrite app_cons. simpl. now rewrite IH.
Qed.

Lemma rstrip_fixed c s : Str.endswith c s = false -> Str.rstrip c s = s.
Proof.
  induction s as [|a s IH]; [reflexivity|]. simpl.
  destruct s as [|b s].
  - intros ->. reflexivity.
  - intros Hs. rewrite (IH Hs). reflexivity.
Qed.

(** What [rstrip] removes is a run of [c]. *)
Lemma rstrip_run c s : exists k, s = Str.rstrip c s +:+ Str.mul c k.
Proof.
  induction s as [|a s [k IH]]; [now exists 0|]. simpl.
  destruct (Str.rstrip c s) as [|b r] eqn:Hr.
  - destruct (Ascii.eqb a c) eqn:Ha.
    + apply Ascii.eqb_eq in Ha as ->. exists (S k). simpl.
      now rewrite IH at 1.
    + exists k. rewrite app_cons. now rewrite IH at 1.
  - exists k. rewrite app_cons. now rewrite IH at 1.
Qed.

Lemma rstrip_not_endswith c s : Str.endswith c (Str.rstrip c s) = false.
Proof.
  induction s as [|a s IH]; [reflexivity|]. simpl.
  destruct (Str.rstrip c s) as [|b r] eqn:Hr.
  - destruct (Ascii.eqb a c) eqn:Ha; [reflexivity | simpl; exact Ha].
  - exact IH.
Qed.

Section Paths.
Import Posixpath.

(** *** [dirname] and [basename] *)

(** Every path is a head, empty or ending with a separator, followed by a
    last component without separator. *)
Lemma path_head_base p :
  exists h b,
    p = h +:+ b /\ Str.contains sep b = false
    /\ (h = "" \/ Str.endswith sep h = true).
Proof.
  induction p as [|a p (h & b & -> & Hb & Hh)].
  - exists "", "". auto.
  - destruct Hh as [-> | Hh].
    + change ("" +:+ b) with b.
      destruct (Ascii.eqb a sep) eqn:Ha.
      * apply Ascii.eqb_eq in Ha as ->. exists "/", b. auto.
      * exists "", (String a b). simpl. rewrite Ha, Hb. auto.
    + exists (String a h), b. repeat split; [exact Hb|]. right.
      simpl. destruct h; [discriminate | exact Hh].
Qed.

Lemma rfind_succ_head h b :
  Str.contains sep b = false -> h = "" \/ Str.endswith sep h = true ->
  Str.rfind_succ sep (h +:+ b) = String.length h.
Proof.
  intros Hb [-> | [h0 ->]%endswith_inv].
  - now apply rfind_succ_without.
  - rewrite app_assoc. change (String sep "" +:+ b) with (String sep b).
    rewrite rfind_succ_app_sep, app_length by exact Hb. simpl. lia.
Qed.

Lemma dirname_app h b :
  Str.contains sep b = false -> h = "" \/ Str.endswith sep h = true ->
  dirname (h +:+ b)
  = if negb (String.eqb h "")
       && negb (String.eqb h (Str.mul sep (String.length h)))
    then Str.rstrip sep h else h.
Proof.
  intros Hb Hh. unfold dirname.
  now rewrite rfind_succ_head, take_app.
Qed.

Lemma basename_app h b :
  Str.contains sep b = false -> h = "" \/ Str.endswith sep h = true ->
  basename (h +:+ b) = b.
Proof.
  intros Hb Hh. unfold basename. now rewrite rfind_succ_head, drop_app.
Qed.

Lemma rstrip_mul c n : Str.rstrip c (Str.mul c n) = "".
Proof.
  induction n as [|n IH]; [reflexivity|]. simpl.
  now rewrite IH, Ascii.eqb_refl.
Qed.

(** *** [normpath] on absolute paths *)

Lemma initial_slashes_abs q :
  isabs q = true -> initial_slashes q = 1 \/ initial_slashes q = 2.
Proof.
  unfold isabs, initial_slashes. intros ->.
  destruct (_ && _); auto.
Qed.

Lemma normpath_abs q :
  isabs q = true ->
  normpath q
  = Str.mul sep (initial_slashes q) +:+ Str.join "/" (components q).
Proof.
  intros Habs. unfold normpath.
  destruct q as [|a q]; [discriminate|].
  change (String.eqb (String a q) "") with false. cbv iota.
  destruct (initial_slashes_abs _ Habs) as [-> | ->]; cbn [Nat.eqb Str.mul];
    rewrite !app_cons; reflexivity.
Qed.

Lemma normpath_step_name acc b :
  name_component b -> normpath_step 1 acc b = acc ++ [b].
Proof.
  intros (_ & H1%String.eqb_neq & H2%String.eqb_neq & H3%String.eqb_neq).
  unfold normpath_step. now rewrite H1, H2, H3.
Qed.

Lemma components_app_sep x y :
  components (x +:+ String sep y)
  = fold_left (normpath_step 1) (Str.split sep y) (components x).
Proof. unfold components. now rewrite split_app_sep, fold_left_app. Qed.

Lemma components_file x b :
  name_component b -> components (x +:+ String sep b) = components x ++ [b].
Proof.
  intros Hb. rewrite components_app_sep.
  rewrite split_without_sep by apply Hb. simpl.
  now apply normpath_step_name.
Qed.

Lemma fold_separators k acc :
  fold_left (normpath_step 1) (Str.split sep (Str.mul sep k)) acc = acc.
Proof. induction k as [|k IH]; [reflexivity|]. simpl. exact IH. Qed.

Lemma components_trailing x k : components (x +:+ Str.mul sep k) = components x.
Proof.
  destruct k as [|k]; [now rewrite app_nil_r|].
  simpl. rewrite components_app_sep. apply fold_separators.
Qed.

Lemma Forall_removelast {A} (P : A -> Prop) l :
  Forall P l -> Forall P (removelast l).
Proof.
  induction 1 as [|x l Hx Hl IH]; simpl; [constructor|].
  destruct l; [constructor | constructor; assumption].
Qed.

Lemma normpath_step_kept acc comp :
  Str.contains sep comp = false ->
  Forall kept_component acc -> Forall kept_component (normpath_step 1 acc comp).
Proof.
  intros Hcomp Hacc. unfold normpath_step.
  destruct (String.eqb comp "") eqn:He; [exact Hacc|].
  apply String.eqb_neq in He. cbn [orb].
  repeat match goal with |- context [if ?c then _ else _] => destruct c end;
    try exact Hacc; try now apply Forall_removelast.
  all: apply Forall_app; split; [exact Hacc | repeat constructor; assumption].
Qed.

Lemma components_kept q : Forall kept_component (components q).
Proof.
  assert (Hfold : forall comps acc,
    Forall (fun c => Str.contains sep c = false) comps ->
    Forall kept_component acc ->
    Forall kept_component (fold_left (normpath_step 1) comps acc)).
  { induction comps as [|c comps IH]; intros acc Hc Hacc; [exact Hacc|].
    inversion Hc; subst. simpl. apply IH; [assumption|].
    now apply normpath_step_kept. }
  unfold components.
  apply Hfold; [apply split_pieces_without_sep | constructor].
Qed.

(** *** Joining kept components *)

Lemma join_snoc cs b :
  Str.join "/" (cs ++ [b])
  = if Str.is_nil cs then b else Str.join "/" cs +:+ String sep b.
Proof.
  unfold Str.join. induction cs as [|c cs IH]; [reflexivity|].
  cbn [app String.concat Str.is_nil].
  destruct cs as [|c' cs]; [reflexivity|].
  cbn [app] in *. rewrite IH. cbn [Str.is_nil].
  change (String.append ?a ?b) with (a +:+ b).
  now rewrite !app_assoc.
Qed.

(** The text of a non-empty list of kept components does not end with a
    separator, whatever precedes it. *)
Lemma join_kept_open pre cs :
  cs <> [] -> Forall kept_component cs ->
  Str.endswith sep (pre +:+ Str.join "/" cs) = false.
Proof.
  intros Hne Hcs.
  destruct (exists_last Hne) as (cs' & l & ->).
  apply Forall_app in Hcs as [_ Hl].
  inversion Hl as [|? ? [Hsep Hnonempty] _]; subst.
  rewrite join_snoc.
  destruct (Str.is_nil cs').
  - rewrite endswith_app by exact Hnonempty. now apply endswith_without.
  - change (String sep l) with ("/" +:+ l).
    rewrite <- !app_assoc, endswith_app by exact Hnonempty.
    now apply endswith_without.
Qed.

Lemma endswith_mul n : n <> 0 -> Str.endswith sep (Str.mul sep n) = true.
Proof.
  destruct n as [|n]; [congruence|]. intros _.
  rewrite mul_snoc. apply endswith_snoc.
Qed.

(** [dirname] removes the last component of a normal absolute path. *)
Lemma dirname_normal i cs b :
  i <> 0 -> Forall kept_component cs -> Str.contains sep b = false ->
  dirname (Str.mul sep i +:+ Str.join "/" (cs ++ [b]))
  = Str.mul sep i +:+ Str.join "/" cs.
Proof.
  intros Hi Hcs Hb. rewrite join_snoc.
  destruct cs as [|c cs]; cbn [Str.is_nil].
  - rewrite dirname_app; [|exact Hb | right; now apply endswith_mul].
    rewrite mul_length, String.eqb_refl, andb_false_r.
    change (Str.join "/" []) with "". now rewrite app_nil_r.
  - set (J := Str.join "/" (c :: cs)).
    assert (Hopen : Str.endswith sep (Str.mul sep i +:+ J) = false).
    { apply join_kept_open; [discriminate | exact Hcs]. }
    change (String sep b) with ("/" +:+ b).
    rewrite <- !app_assoc.
    rewrite dirname_app; [|exact Hb | right; apply endswith_snoc].
    rewrite (rstrip_snoc sep), (rstrip_fixed _ _ Hopen).
    destruct i as [|i]; [congruence|].
    assert (Hrun : String.eqb ((Str.mul sep (S i) +:+ J) +:+ "/")
                     (Str.mul sep (String.length
                        ((Str.mul sep (S i) +:+ J) +:+ "/"))) = false).
    { apply String.eqb_neq. intros Heq.
      apply (f_equal (Str.rstrip sep)) in Heq.
      rewrite rstrip_mul, (rstrip_snoc sep), (rstrip_fixed _ _ Hopen) in Heq.
      discriminate. }
    rewrite Hrun. reflexivity.
Qed.

(** *** Leading separators *)

Lemma prefix_nil s : String.prefix "" s = true.
Proof. now destruct s. Qed.

Lemma prefix_cons a s b t :
  String.prefix (String a s) (String b t) = Ascii.eqb a b && String.prefix s t.
Proof.
  cbn [String.prefix].
  destruct (ascii_dec a b) as [-> | Hne].
  - now rewrite Ascii.eqb_refl.
  - apply Ascii.eqb_neq in Hne. now rewrite Hne.
Qed.

Lemma isabs_cons a s : isabs (String a s) = Ascii.eqb "/" a.
Proof.
  unfold isabs, Str.startswith.
  now rewrite prefix_cons, prefix_nil, andb_true_r.
Qed.

Lemma isabs_app x y : x <> "" -> isabs (x +:+ y) = isabs x.
Proof.
  destruct x as [|a x]; [congruence|]. intros _.
  now rewrite app_cons, !isabs_cons.
Qed.

Lemma isabs_without b : Str.contains sep b = false -> isabs b = false.
Proof.
  destruct b as [|a b]; [reflexivity|]. simpl.
  intros [Ha _]%orb_false_iff. rewrite isabs_cons.
  now rewrite Ascii.eqb_sym.
Qed.

Lemma isabs_mul n : n <> 0 -> isabs (Str.mul sep n) = true.
Proof.
  destruct n; [congruence|]. intros _. cbn [Str.mul].
  now rewrite isabs_cons.
Qed.

Lemma initial_slashes_cons a s :
  initial_slashes (String a s)
  = if Ascii.eqb "/" a then
      if isabs s && negb (match s with
                          | String _ s' => isabs s'
                          | "" => false
                          end)
      then 2 else 1
    else 0.
Proof.
  unfold initial_slashes, isabs, Str.startswith.
  rewrite !prefix_cons, prefix_nil.
  destruct (Ascii.eqb "/" a); [|reflexivity]. cbn [andb].
  destruct s as [|b s]; [reflexivity|].
  rewrite !prefix_cons, prefix_nil.
  destruct (Ascii.eqb "/" b); [|reflexivity]. cbn [andb].
  destruct s as [|c s]; [reflexivity|].
  now rewrite !prefix_cons, prefix_nil.
Qed.

(** Text that does not start with a separator adds no leading separator. *)
Lemma initial_slashes_app_rel x y :
  isabs y = false -> initial_slashes (x +:+ y) = initial_slashes x.
Proof.
  intros Hy.
  destruct x as [|a x]; [destruct y as [|d y]; [reflexivity|];
    rewrite isabs_cons in Hy; change ("" +:+ String d y) with (String d y);
    now rewrite initial_slashes_cons, Hy|].
  rewrite app_cons, !initial_slashes_cons.
  destruct (Ascii.eqb "/" a); [|reflexivity].
  destruct x as [|b x]; [change ("" +:+ y) with y; now rewrite Hy|].
  rewrite app_cons, !isabs_cons.
  destruct (Ascii.eqb "/" b); [|reflexivity]. cbn [andb].
  destruct x as [|c x]; [change ("" +:+ y) with y; now rewrite Hy|].
  now rewrite app_cons, !isabs_cons.
Qed.

(** Nothing that follows a non-separator changes the leading separators. *)
Lemma initial_slashes_app_open x z :
  x <> "" -> Str.endswith sep x = false ->
  initial_slashes (x +:+ z) = initial_slashes x.
Proof.
  intros Hx Hopen.
  destruct x as [|a x]; [congruence|].
  rewrite app_cons, !initial_slashes_cons.
  destruct (Ascii.eqb "/" a) eqn:Ha; [|reflexivity].
  destruct x as [|b x].
  { simpl in Hopen. rewrite Ascii.eqb_sym in Ha. congruence. }
  rewrite app_cons, !isabs_cons.
  destruct (Ascii.eqb "/" b) eqn:Hb; [|reflexivity]. cbn [andb].
  destruct x as [|c x].
  { simpl in Hopen. rewrite Ascii.eqb_sym in Hb. congruence. }
  now rewrite app_cons, !isabs_cons.
Qed.

(** *** [dirname] of a normalised path *)

Lemma components_closed x : components (x +:+ "/") = components x.
Proof. apply (components_trailing x 1). Qed.

(** The head ends with a separator. *)
Lemma dirname_normpath_closed x b :
  isabs x = true -> Str.endswith sep x = true -> name_component b ->
  dirname (normpath (x +:+ b)) = normpath x.
Proof.
  intros Habs [x0 ->]%endswith_inv Hb.
  assert (Hrel : isabs b = false) by (apply isabs_without, Hb).
  rewrite !normpath_abs;
    [|exact Habs | rewrite isabs_app; [exact Habs | now destruct x0]].
  rewrite initial_slashes_app_rel by exact Hrel.
  rewrite app_assoc. change (String sep "" +:+ b) with (String sep b).
  rewrite components_file by exact Hb.
  rewrite (components_closed x0).
  apply dirname_normal.
  - destruct (initial_slashes_abs _ Habs) as [-> | ->]; discriminate.
  - apply components_kept.
  - apply Hb.
Qed.

(** The head ends with a name; separators stand between it and the last
    component. *)
Lemma dirname_normpath_open y k b :
  isabs y = true -> Str.endswith sep y = false -> name_component b ->
  dirname (normpath (y +:+ Str.mul sep (S k) +:+ b)) = normpath y.
Proof.
  intros Habs Hopen Hb.
  assert (Hy : y <> "") by (intros ->; discriminate).
  rewrite !normpath_abs; [|exact Habs | now rewrite isabs_app].
  rewrite initial_slashes_app_open by assumption.
  rewrite mul_snoc, app_assoc, <- (app_assoc y).
  change (String sep "" +:+ b) with (String sep b).
  rewrite components_file by exact Hb.
  rewrite components_trailing.
  apply dirname_normal.
  - destruct (initial_slashes_abs _ Habs) as [-> | ->]; discriminate.
  - apply components_kept.
  - apply Hb.
Qed.

(** *** [abspath] and [dirname] commute on paths that name a file *)

(** What [join] puts in front of a relative path. *)
Lemma join_relative cwd :
  isabs cwd = true ->
  exists pre,
    isabs pre = true /\ Str.endswith sep pre = true
    /\ forall q, isabs q = false -> join cwd q = pre +:+ q.
Proof.
  intros Habs. unfold join.
  assert (Hne : String.eqb cwd "" = false) by now destruct cwd.
  rewrite Hne. cbn [orb].
  destruct (Str.endswith sep cwd) eqn:Hend.
  - exists cwd. repeat split; [assumption..|].
    intros q Hq. unfold isabs in Hq. now rewrite Hq.
  - exists (cwd +:+ "/"). split; [|split].
    + rewrite isabs_app; [exact Habs | now destruct cwd].
    + apply endswith_snoc.
    + intros q Hq. unfold isabs in Hq. now rewrite Hq, app_assoc.
Qed.

Lemma names_file_inv f :
  names_file f = true ->
  exists h b,
    f = h +:+ b /\ name_component b
    /\ (h = "" \/ Str.endswith sep h = true).
Proof.
  intros Hf.
  destruct (path_head_base f) as (h & b & -> & Hb & Hh).
  exists h, b. split; [reflexivity|]. split; [|exact Hh].
  unfold names_file in Hf. rewrite basename_app in Hf by assumption.
  apply andb_true_iff in Hf as [[H1 H2]%andb_true_iff H3].
  apply negb_true_iff, String.eqb_neq in H1, H2, H3.
  repeat split; assumption.
Qed.

Theorem abspath_dirname cwd f :
  isabs cwd = true -> names_file f = true ->
  abspath cwd (dirname f) = dirname (abspath cwd f).
Proof.
  intros Hcwd (h & b & -> & Hb & Hh)%names_file_inv.
  destruct (join_relative cwd Hcwd) as (pre & Hpre & Hclosed & Hjoin).
  assert (Hpre_ne : pre <> "") by (intros ->; discriminate).
  assert (Hrel : isabs b = false) by (apply isabs_without, Hb).
  rewrite dirname_app; [|apply Hb | exact Hh].
  unfold abspath.
  destruct Hh as [-> | Hh].
  { (* the path is the bare file name *)
    change ("" +:+ b) with b. cbn [String.eqb negb andb].
    rewrite Hrel. change (isabs "") with false. cbv iota.
    rewrite !Hjoin by (reflexivity || exact Hrel).
    rewrite app_nil_r. symmetry. now apply dirname_normpath_closed. }
  assert (Hh_ne : h <> "") by (intros ->; discriminate).
  assert (Hne : String.eqb h "" = false) by now apply String.eqb_neq.
  rewrite Hne. cbn [negb andb].
  rewrite (isabs_app h b) by exact Hh_ne.
  destruct (String.eqb h (Str.mul sep (String.length h))) eqn:Hrun.
  { (* the head is a run of separators: the file is in the root *)
    cbn [negb].
    assert (Habs : isabs h = true).
    { apply String.eqb_eq in Hrun. rewrite Hrun. apply isabs_mul.
      destruct h; [congruence | discriminate]. }
    rewrite Habs. symmetry. now apply dirname_normpath_closed. }
  cbn [negb].
  (* the head is a directory path followed by separators *)
  destruct (rstrip_run sep h) as [k Hk].
  set (d := Str.rstrip sep h) in *.
  assert (Hopen : Str.endswith sep d = false) by apply rstrip_not_endswith.
  assert (Hd_ne : d <> "").
  { intros Hd. rewrite Hd in Hk.
    change ("" +:+ Str.mul sep k) with (Str.mul sep k) in Hk.
    apply String.eqb_neq in Hrun. apply Hrun.
    rewrite Hk at 1. now rewrite Hk, mul_length. }
  assert (Hk_pos : exists k', k = S k').
  { destruct k as [|k']; [|now exists k'].
    rewrite app_nil_r in Hk. rewrite <- Hk in Hopen. congruence. }
  destruct Hk_pos as [k' ->].
  assert (Hdabs : isabs d = isabs h) by (rewrite Hk; now rewrite isabs_app).
  rewrite Hdabs.
  destruct (isabs h) eqn:Habs.
  - rewrite Hk, app_assoc. symmetry. apply dirname_normpath_open; congruence.
  - rewrite !Hjoin by (congruence || (rewrite isabs_app; congruence)).
    rewrite Hk, app_assoc, <- (app_assoc pre). symmetry.
    apply dirname_normpath_open; [| |exact Hb].
    + now rewrite isabs_app.
    + now rewrite endswith_app.
Qed.

End Paths.

(** ** What [abspath] returns, and reading back a list of strings *)

Lemma abspath_isabs cwd0 path :
  Posixpath.isabs cwd0 = true ->
  Posixpath.isabs (Posixpath.abspath cwd0 path) = true.
Proof.
  intros Hcwd. unfold Posixpath.abspath.
  set (q := if Posixpath.isabs path then path else Posixpath.join cwd0 path).
  assert (Hq : Posixpath.isabs q = true).
  { subst q. destruct (Posixpath.isabs path) eqn:Hpath; [exact Hpath|].
    destruct (join_relative cwd0 Hcwd) as (pre & Hpre & _ & Hjoin).
    rewrite Hjoin by exact Hpath.
    rewrite isabs_app; [exact Hpre | intros ->; discriminate]. }
  rewrite normpath_abs by exact Hq.
  destruct (initial_slashes_abs _ Hq) as [-> | ->]; cbn [Str.mul];
    now rewrite app_cons, isabs_cons.
Qed.

Lemma as_str_list_strings (l : list string) :
  Descriptor.as_str_list (PList (PStr <$> l)) = Some l.
Proof.
  unfold Descriptor.as_str_list.
  induction l as [|s l IH]; [reflexivity|].
  cbn [fmap list_fmap mapM Descriptor.as_str]. cbn [mbind option_bind].
  rewrite IH. reflexivity.
Qed.

(** * Further properties *)

(** ** Patterns *)

Lemma glob_literal pat name :
  Fnmatch.is_literal pat = true ->
  Fnmatch.glob pat name = String.eqb name pat.
Proof.
  unfold Fnmatch.is_literal. revert name.
  induction pat as [|c pat IH]; intros name Hlit; [reflexivity|].
  cbn [Str.contains] in Hlit.
  apply andb_true_iff in Hlit as [[H1 H2]%andb_true_iff H3].
  apply negb_true_iff, orb_false_iff in H1 as [Hstar H1].
  apply negb_true_iff, orb_false_iff in H2 as [Hany H2].
  apply negb_true_iff, orb_false_iff in H3 as [_ H3].
  cbn [Fnmatch.glob]. rewrite Hstar, Hany.
  destruct name as [|a name]; [reflexivity|].
  cbn [String.eqb]. rewrite IH; [reflexivity|].
  now rewrite H1, H2, H3.
Qed.

Lemma glob_star pat name :
  Fnmatch.glob (String "*" pat) name
  = Fnmatch.glob pat name
    || match name with
       | "" => false
       | String _ name' => Fnmatch.glob (String "*" pat) name'
       end.
Proof. now destruct name. Qed.

Lemma glob_star_any name : Fnmatch.glob "*" name = true.
Proof.
  induction name as [|a name IH]; [reflexivity|].
  rewrite glob_star, IH. apply orb_true_r.
Qed.

Lemma glob_star_suffix pat name :
  Fnmatch.is_literal pat = true ->
  Fnmatch.glob (String "*" pat) name = true
  <-> exists pre, name = pre +:+ pat.
Proof.
  intros Hlit. induction name as [|a name IH].
  - rewrite glob_star, orb_false_r, glob_literal by exact Hlit.
    rewrite String.eqb_eq. split.
    + intros <-. now exists "".
    + intros [[|b pre] Hpre]; [exact Hpre | discriminate].
  - rewrite glob_star, orb_true_iff, glob_literal, IH by exact Hlit.
    rewrite String.eqb_eq. split.
    + intros [-> | [pre ->]]; [now exists "" | now exists (String a pre)].
    + intros [[|b pre] Hpre]; [now left|].
      right. injection Hpre as -> ->. now exists pre.
Qed.

(** X9: a pattern without [*], [?] and [[] matches its own text only; with a
    [*] in front it matches the names that end with that text; [*] alone
    matches every name. *)
Theorem fnmatchcase_literal_and_star pat name :
  Fnmatch.is_literal pat = true ->
  (Fnmatch.fnmatchcase name pat = true <-> name = pat)
  /\ (Fnmatch.fnmatchcase name ("*" +:+ pat) = true
      <-> exists pre, name = pre +:+ pat)
  /\ Fnmatch.fnmatchcase name "*" = true.
Proof.
  intros Hlit. unfold Fnmatch.fnmatchcase. split; [|split].
  - rewrite glob_literal by exact Hlit. apply String.eqb_eq.
  - now apply glob_star_suffix.
  - apply glob_star_any.
Qed.

Lemma fnmatchcase_literal_and_star_witness :
  (Fnmatch.fnmatchcase "a.__pycache__" "__pycache__" = true
   <-> "a.__pycache__" = "__pycache__")
  /\ (Fnmatch.fnmatchcase "a.__pycache__" ("*" +:+ "__pycache__") = true
      <-> exists pre, "a.__pycache__" = pre +:+ "__pycache__")
  /\ Fnmatch.fnmatchcase "a.__pycache__" "*" = true.
Proof.
  apply (fnmatchcase_literal_and_star "__pycache__" "a.__pycache__").
  reflexivity.
Defined.

(** ** What the descriptor discovers *)

(** X1: the descriptor discovers exactly the importable packages whose name
    is neither [tests] nor [ez_setup] and does not end with
    [__pycache__]. *)
Theorem descriptor_packages_characterised entries package :
  package ∈ Setuptools.find_packages ["tests"] entries
  <-> package ∈ Setuptools.importable_packages entries
      /\ package <> "tests"
      /\ package <> "ez_setup"
      /\ ~ (exists pre, package = pre +:+ "__pycache__").
Proof.
  rewrite find_packages_tests_elem.
  cbn [Setuptools.filter_call Setuptools.ALWAYS_EXCLUDE app existsb].
  rewrite !orb_false_iff. unfold Fnmatch.fnmatchcase.
  rewrite (glob_literal "ez_setup"), (glob_literal "tests") by reflexivity.
  rewrite !String.eqb_neq.
  rewrite <- (not_true_iff_false (Fnmatch.glob "*__pycache__" package)).
  change "*__pycache__" with (String "*" "__pycache__").
  rewrite (glob_star_suffix "__pycache__") by reflexivity.
  intuition congruence.
Qed.

(** ** The walk for any exclusion list *)

Section AnyExclusion.
Import Setuptools.

Variables exclude include : list string.

Lemma yielded_sublist rel entries :
  yielded exclude include rel entries
    `sublist_of` yielded [] include rel entries.
Proof.
  unfold yielded.
  induction entries as [|n ns IH]; [constructor|].
  cbn [flat_map]. apply sublist_app; [|exact IH].
  destruct (valid_package_dir n); [|constructor].
  rewrite filter_call_nil.
  destruct (filter_call include _); cbn [andb negb]; [|constructor].
  destruct (filter_call exclude _); cbn [negb];
    [apply sublist_nil_l | reflexivity].
Qed.

Lemma descends_only_packages rel d :
  descends exclude rel d = true -> descends [] rel d = true.
Proof.
  unfold descends. intros [Hvalid _]%andb_true_iff. now rewrite Hvalid.
Qed.

Lemma find_iter_sublist n :
  forall rel,
    find_iter exclude include rel n `sublist_of` find_iter [] include rel n.
Proof.
  induction n as [name|name entries IH] using node_forall_ind; intros rel.
  - constructor.
  - rewrite !find_iter_Dir. apply sublist_app; [apply yielded_sublist|].
    induction IH as [|d ds Hd _ IHds]; [constructor|].
    cbn [flat_map]. apply sublist_app; [|exact IHds].
    destruct (descends exclude rel d) eqn:Hdesc; [|apply sublist_nil_l].
    rewrite (descends_only_packages _ _ Hdesc). apply Hd.
Qed.

End AnyExclusion.

(** X5: whatever the exclusion list, also one that stops the walk below a
    package, what is discovered is a selection of the importable packages,
    in their order: exclusion never adds or reorders. *)
Theorem find_packages_selects_importable exclude entries :
  Setuptools.find_packages exclude entries
    `sublist_of` Setuptools.importable_packages entries.
Proof. apply find_iter_sublist. Qed.

(** X3: an entry that is no package directory, be it a file, a directory
    without [__init__.py] or one with a dot in its name, is invisible to
    discovery together with everything below it. *)
Theorem find_packages_skips_non_packages exclude before n after :
  Setuptools.valid_package_dir n = false ->
  Setuptools.find_packages exclude (before ++ n :: after)
  = Setuptools.find_packages exclude (before ++ after).
Proof.
  intros Hn. unfold Setuptools.find_packages.
  rewrite !find_iter_Dir. unfold Setuptools.yielded, Setuptools.descends.
  rewrite !flat_map_app. cbn [flat_map]. now rewrite Hn.
Qed.

(** A [src] directory without [__init__.py] hides the package inside it. *)
Lemma find_packages_skips_non_packages_witness :
  Setuptools.find_packages ["tests"]
    ([File "setup.py"]
     ++ Dir "src" [Dir "fireci" [Sample.init_py]] :: Sample.tree_with_tests)
  = Setuptools.find_packages ["tests"]
      ([File "setup.py"] ++ Sample.tree_with_tests).
Proof.
  apply (find_packages_skips_non_packages ["tests"] [File "setup.py"]
           (Dir "src" [Dir "fireci" [Sample.init_py]])
           Sample.tree_with_tests).
  reflexivity.
Defined.

(** ** [split] and [join] *)

Lemma concat_cons sep x y ys :
  String.concat sep (x :: y :: ys) = x +:+ sep +:+ String.concat sep (y :: ys).
Proof. reflexivity. Qed.

Lemma join_split c s : Str.join (String c "") (Str.split c s) = s.
Proof.
  unfold Str.join. induction s as [|a s IH]; [reflexivity|].
  cbn [Str.split]. destruct (Ascii.eqb a c) eqn:Ha.
  - apply Ascii.eqb_eq in Ha as ->.
    destruct (Str.split c s) as [|w ws] eqn:Hs;
      [now apply split_nonempty in Hs|].
    rewrite concat_cons, IH. reflexivity.
  - destruct (Str.split c s) as [|w [|w' ws]] eqn:Hs.
    + now apply split_nonempty in Hs.
    + cbn [String.concat] in *. now rewrite IH.
    + rewrite concat_cons. rewrite concat_cons in IH.
      rewrite app_cons. now rewrite IH.
Qed.

Lemma split_join c pieces :
  pieces <> [] ->
  Forall (fun piece => Str.contains c piece = false) pieces ->
  Str.split c (Str.join (String c "") pieces) = pieces.
Proof.
  unfold Str.join. intros Hne Hfree.
  induction Hfree as [|x xs Hx Hxs IH]; [congruence|].
  destruct xs as [|y ys].
  - cbn [String.concat]. now apply split_without_sep.
  - rewrite concat_cons.
    change (String c "" +:+ ?t) with (String c t).
    rewrite split_app_sep, (split_without_sep _ _ Hx), IH by discriminate.
    reflexivity.
Qed.

(** X10: joining the pieces of a split gives the string back, and splitting
    a join of pieces that are free of the separator gives the pieces
    back. *)
Theorem split_join_round_trip c s pieces :
  pieces <> [] ->
  Forall (fun piece => Str.contains c piece = false) pieces ->
  Str.join (String c "") (Str.split c s) = s
  /\ Str.split c (Str.join (String c "") pieces) = pieces.
Proof. intros Hne Hfree. split; [apply join_split | now apply split_join]. Qed.

Lemma split_join_round_trip_witness :
  Str.join "/" (Str.split "/" "//repo/ci/") = "//repo/ci/"
  /\ Str.split "." (Str.join "." ["fireci"; "main"]) = ["fireci"; "main"].
Proof.
  split.
  - apply (split_join_round_trip "/" "//repo/ci/" ["x"]);
      [discriminate | repeat constructor].
  - apply (split_join_round_trip "." "" ["fireci"; "main"]);
      [discriminate | repeat constructor].
Defined.

Lemma join_app_ne sep xs ys :
  xs <> [] -> ys <> [] ->
  Str.join sep (xs ++ ys) = Str.join sep xs +:+ sep +:+ Str.join sep ys.
Proof.
  unfold Str.join. intros Hxs Hys.
  induction xs as [|x xs IH]; [congruence|].
  destruct xs as [|x' xs].
  - destruct ys as [|y ys]; [congruence | reflexivity].
  - cbn [app] in *. rewrite !concat_cons, IH by discriminate.
    now rewrite !app_assoc.
Qed.

(** The text that the walk puts in front of the names found below the
    relative path [rel]. *)
Lemma join_below rel names :
  names <> [] ->
  Str.join "." (rel ++ names)
  = (if Str.is_nil rel then "" else Str.join "." rel +:+ ".")
    +:+ Str.join "." names.
Proof.
  intros Hne. destruct rel as [|r rel]; [reflexivity|].
  rewrite join_app_ne by (discriminate || exact Hne).
  cbn [Str.is_nil]. now rewrite app_assoc.
Qed.

Lemma contains_append c s t :
  Str.contains c (s +:+ t) = Str.contains c s || Str.contains c t.
Proof.
  induction s as [|a s IH]; [reflexivity|].
  rewrite app_cons. simpl. now rewrite IH, orb_assoc.
Qed.

(** Cutting at the last separator is unambiguous. *)
Lemma app_sep_inj_last c x y x' y' :
  Str.contains c y = false -> Str.contains c y' = false ->
  x +:+ String c y = x' +:+ String c y' -> x = x' /\ y = y'.
Proof.
  intros Hy Hy'. revert x'.
  induction x as [|a x IH]; intros [|a' x'] Heq.
  - now injection Heq.
  - injection Heq as <- ->.
    rewrite contains_append in Hy. cbn [Str.contains] in Hy.
    rewrite Ascii.eqb_refl, orb_true_r in Hy. discriminate.
  - injection Heq as -> <-.
    rewrite contains_append in Hy'. cbn [Str.contains] in Hy'.
    rewrite Ascii.eqb_refl, orb_true_r in Hy'. discriminate.
  - rewrite !app_cons in Heq. injection Heq as -> Heq.
    destruct (IH _ Heq) as [-> ->]. auto.
Qed.

(** Cutting at the first separator is unambiguous. *)
Lemma app_sep_inj_first c x y x' y' :
  Str.contains c x = false -> Str.contains c x' = false ->
  x +:+ String c y = x' +:+ String c y' -> x = x' /\ y = y'.
Proof.
  revert x'. induction x as [|a x IH]; intros [|a' x'] Hx Hx' Heq.
  - now injection Heq.
  - injection Heq as <- _. cbn [Str.contains] in Hx'.
    now rewrite Ascii.eqb_refl in Hx'.
  - injection Heq as -> _. cbn [Str.contains] in Hx.
    now rewrite Ascii.eqb_refl in Hx.
  - rewrite !app_cons in Heq. injection Heq as -> Heq.
    cbn [Str.contains] in Hx, Hx'.
    apply orb_false_iff in Hx as [_ Hx]. apply orb_false_iff in Hx' as [_ Hx'].
    destruct (IH _ Hx Hx' Heq) as [-> ->]. auto.
Qed.

(** ** Packages and paths of package directories *)

Section PackagePaths.
Import Setuptools.

Lemma valid_package_dir_inv n :
  valid_package_dir n = true ->
  exists d sub,
    n = Dir d sub /\ Str.contains "." d = false
    /\ looks_like_package sub = true.
Proof.
  destruct n as [f|d sub]; [discriminate|]. cbn [valid_package_dir].
  intros [Hdot Hinit]%andb_true_iff. apply negb_true_iff in Hdot.
  now exists d, sub.
Qed.

Lemma is_package_path_cons entries name rest :
  is_package_path entries (name :: rest) = true
  <-> exists sub,
        In (Dir name sub) entries
        /\ valid_package_dir (Dir name sub) = true
        /\ is_package_path sub rest = true.
Proof.
  cbn [is_package_path]. rewrite existsb_exists. split.
  - intros ([f|d sub] & Hin & Hn); [discriminate|].
    apply andb_true_iff in Hn
      as [[Hd%String.eqb_eq Hvalid]%andb_true_iff Hrest].
    subst d. now exists sub.
  - intros (sub & Hin & Hvalid & Hrest).
    exists (Dir name sub). split; [exact Hin|].
    now rewrite String.eqb_refl, Hvalid, Hrest.
Qed.

Lemma filter_call_star name : filter_call ["*"] name = true.
Proof.
  cbn [filter_call existsb]. unfold Fnmatch.fnmatchcase.
  now rewrite glob_star_any.
Qed.

Lemma in_yielded_all rel entries package :
  In package (yielded [] ["*"] rel entries)
  <-> exists n,
        In n entries /\ valid_package_dir n = true
        /\ package = package_name rel (node_name n).
Proof.
  unfold yielded. rewrite in_flat_map. split.
  - intros (n & Hin & Hp). exists n. split; [exact Hin|].
    destruct (valid_package_dir n); [|contradiction].
    rewrite filter_call_star, filter_call_nil in Hp.
    destruct Hp as [<- | []]. auto.
  - intros (n & Hin & Hvalid & ->). exists n. split; [exact Hin|].
    rewrite Hvalid, filter_call_star, filter_call_nil. now left.
Qed.

Lemma descends_all rel n : descends [] rel n = valid_package_dir n.
Proof. unfold descends. cbn. apply andb_true_r. Qed.

Lemma find_iter_all_sound n :
  forall rel package,
    In package (find_iter [] ["*"] rel n) ->
    exists names,
      names <> [] /\ package = Str.join "." (rel ++ names)
      /\ match n with
         | File _ => False
         | Dir _ entries => is_package_path entries names = true
         end.
Proof.
  induction n as [name|name entries IH] using node_forall_ind;
    intros rel package; [intros []|].
  rewrite find_iter_Dir, in_app_iff, in_yielded_all, in_flat_map.
  intros [(n & Hin & Hvalid & ->) | (n & Hin & Hp)].
  - destruct (valid_package_dir_inv _ Hvalid) as (d & sub & -> & _ & _).
    exists [d]. split; [discriminate|]. split; [reflexivity|].
    apply is_package_path_cons. now exists sub.
  - rewrite descends_all in Hp.
    destruct (valid_package_dir n) eqn:Hvalid; [|contradiction].
    destruct (valid_package_dir_inv _ Hvalid) as (d & sub & -> & _ & _).
    rewrite Forall_forall in IH.
    destruct (IH (Dir d sub) (proj2 (list_elem_of_In _ _) Hin) _ _ Hp)
      as (names & Hne & -> & Hpath).
    exists (d :: names). split; [discriminate|].
    split; [now rewrite <- List.app_assoc|].
    apply is_package_path_cons. now exists sub.
Qed.

Lemma find_iter_all_complete names :
  forall rel name entries,
    names <> [] -> is_package_path entries names = true ->
    In (Str.join "." (rel ++ names))
       (find_iter [] ["*"] rel (Dir name entries)).
Proof.
  induction names as [|d rest IH]; intros rel name entries Hne Hpath;
    [congruence|].
  apply is_package_path_cons in Hpath as (sub & Hin & Hvalid & Hrest).
  rewrite find_iter_Dir, in_app_iff.
  destruct rest as [|d' rest].
  - left. apply in_yielded_all. exists (Dir d sub). auto.
  - right. apply in_flat_map. exists (Dir d sub). split; [exact Hin|].
    rewrite descends_all, Hvalid. cbn [node_name].
    replace (rel ++ d :: d' :: rest) with ((rel ++ [d]) ++ d' :: rest)
      by now rewrite <- List.app_assoc.
    apply IH; [discriminate | exact Hrest].
Qed.

Lemma is_package_path_names entries names :
  is_package_path entries names = true ->
  Forall (fun name => Str.contains "." name = false) names.
Proof.
  revert entries. induction names as [|d rest IH]; intros entries Hpath;
    [constructor|].
  apply is_package_path_cons in Hpath as (sub & _ & Hvalid & Hrest).
  apply valid_package_dir_inv in Hvalid as (d' & sub' & [= <- <-] & Hdot & _).
  constructor; [exact Hdot | now apply (IH sub)].
Qed.

Lemma is_package_path_prefix entries names more :
  is_package_path entries (names ++ more) = true ->
  is_package_path entries names = true.
Proof.
  revert entries. induction names as [|d rest IH]; intros entries Hpath;
    [reflexivity|].
  cbn [app] in Hpath.
  apply is_package_path_cons in Hpath as (sub & Hin & Hvalid & Hrest).
  apply is_package_path_cons. exists sub. eauto.
Qed.

End PackagePaths.

(** X2: a name is an importable package exactly when it is the dotted form
    of a non-empty path of package directories from the root of the walk:
    discovery finds every such path and nothing else. *)
Theorem importable_packages_are_package_paths entries package :
  package ∈ Setuptools.importable_packages entries
  <-> exists names,
        names <> [] /\ package = Str.join "." names
        /\ Setuptools.is_package_path entries names = true.
Proof.
  unfold Setuptools.importable_packages. rewrite list_elem_of_In. split.
  - intros (names & Hne & -> & Hpath)%find_iter_all_sound. now exists names.
  - intros (names & Hne & -> & Hpath).
    now apply (find_iter_all_complete names []).
Qed.

(** X4: the parent of an importable package is importable: if
    [parent.child] is found, with [child] free of dots, then so is
    [parent]. *)
Theorem importable_parent entries parent child :
  Str.contains "." child = false ->
  parent +:+ "." +:+ child ∈ Setuptools.importable_packages entries ->
  parent ∈ Setuptools.importable_packages entries.
Proof.
  intros Hchild Hin. unfold Setuptools.importable_packages in *.
  apply list_elem_of_In, find_iter_all_sound in Hin
    as (names & Hne & Heq & Hpath). cbn [app] in Heq.
  destruct (exists_last Hne) as (ns & l & ->).
  pose proof (is_package_path_names _ _ Hpath) as Hnames.
  apply Forall_app in Hnames as [_ Hldot].
  rewrite Forall_singleton in Hldot.
  destruct ns as [|n ns].
  - cbn in Heq. rewrite <- Heq in Hldot.
    change ("." +:+ child) with (String "." child) in Hldot.
    rewrite contains_append in Hldot.
    cbn [Str.contains] in Hldot. rewrite Ascii.eqb_refl in Hldot.
    now rewrite orb_true_r in Hldot.
  - rewrite join_app_ne in Heq by discriminate.
    change ("." +:+ child) with (String "." child) in Heq.
    change ("." +:+ Str.join "." [l]) with (String "." l) in Heq.
    apply app_sep_inj_last in Heq as [-> _]; [|assumption..].
    apply list_elem_of_In, (find_iter_all_complete (n :: ns) []);
      [discriminate|].
    now apply is_package_path_prefix in Hpath.
Qed.

Lemma importable_parent_witness :
  "tests" ∈ Setuptools.importable_packages Sample.tree_with_tests.
Proof.
  apply (importable_parent Sample.tree_with_tests "tests" "unit").
  - reflexivity.
  - apply list_elem_of_In. vm_compute. auto.
Defined.

(** ** The directory handed to [os.chdir] *)

Section NormalForm.
Import Posixpath.

Lemma last_name acc :
  Forall name_component acc -> acc <> [] -> List.last acc "" <> "..".
Proof.
  intros Hacc Hne. destruct (exists_last Hne) as (front & l & ->).
  rewrite last_last. apply Forall_app in Hacc as [_ Hl].
  rewrite Forall_singleton in Hl. apply Hl.
Qed.

Lemma normpath_step_names acc comp :
  Str.contains sep comp = false ->
  Forall name_component acc ->
  Forall name_component (normpath_step 1 acc comp).
Proof.
  intros Hcomp Hacc. unfold normpath_step.
  destruct (String.eqb comp "") eqn:He; [exact Hacc|].
  destruct (String.eqb comp ".") eqn:Hd; [exact Hacc|].
  cbn [orb Nat.eqb andb].
  apply String.eqb_neq in He, Hd.
  destruct (String.eqb comp "..") eqn:Hdd; cbn [negb orb].
  - destruct acc as [|a acc]; [exact Hacc|]. cbn [Str.is_nil negb andb].
    assert (Hlast : String.eqb (List.last (a :: acc) "") ".." = false).
    { apply String.eqb_neq, last_name; [exact Hacc | discriminate]. }
    rewrite Hlast. now apply Forall_removelast.
  - apply String.eqb_neq in Hdd.
    apply Forall_app. split; [exact Hacc|].
    repeat constructor; assumption.
Qed.

(** On an absolute path no [..] survives: the kept components are names. *)
Lemma components_names q : Forall name_component (components q).
Proof.
  assert (Hfold : forall comps acc,
    Forall (fun c => Str.contains sep c = false) comps ->
    Forall name_component acc ->
    Forall name_component (fold_left (normpath_step 1) comps acc)).
  { induction comps as [|c comps IH]; intros acc Hc Hacc; [exact Hacc|].
    inversion Hc; subst. simpl. apply IH; [assumption|].
    now apply normpath_step_names. }
  unfold components.
  apply Hfold; [apply split_pieces_without_sep | constructor].
Qed.

Lemma components_separators k : components (Str.mul sep k) = [].
Proof. unfold components. apply fold_separators. Qed.

Lemma isabs_join_names c cs :
  name_component c -> isabs (Str.join "/" (c :: cs)) = false.
Proof.
  intros (Hsep & Hne & _). unfold Str.join.
  destruct cs as [|c' cs]; cbn [String.concat].
  - now apply isabs_without.
  - change (String.append ?a ?b) with (a +:+ b).
    rewrite isabs_app by exact Hne. now apply isabs_without.
Qed.

(** The components of a normal form are the components it shows. *)
Lemma components_normal i cs :
  i <> 0 -> Forall name_component cs ->
  components (Str.mul sep i +:+ Str.join "/" cs) = cs.
Proof.
  intros Hi. destruct i as [|i]; [congruence|]. clear Hi.
  induction cs as [|b cs IH] using rev_ind; intros Hcs.
  - change (Str.join "/" []) with "". rewrite app_nil_r.
    apply components_separators.
  - apply Forall_app in Hcs as [Hcs Hb]. rewrite Forall_singleton in Hb.
    rewrite join_snoc. destruct cs as [|c cs]; cbn [Str.is_nil].
    + rewrite mul_snoc, app_assoc.
      change (String sep "" +:+ b) with (String sep b).
      rewrite components_file by exact Hb.
      now rewrite components_separators.
    + rewrite <- app_assoc. rewrite components_file by exact Hb.
      now rewrite IH.
Qed.

Lemma initial_slashes_normal i cs :
  i = 1 \/ i = 2 -> Forall name_component cs ->
  initial_slashes (Str.mul sep i +:+ Str.join "/" cs) = i.
Proof.
  intros Hi Hcs.
  rewrite initial_slashes_app_rel.
  - now destruct Hi as [-> | ->].
  - destruct cs as [|c cs]; [reflexivity|].
    apply isabs_join_names. now inversion Hcs.
Qed.

Lemma normpath_normal i cs :
  i = 1 \/ i = 2 -> Forall name_component cs ->
  normpath (Str.mul sep i +:+ Str.join "/" cs)
  = Str.mul sep i +:+ Str.join "/" cs.
Proof.
  intros Hi Hcs.
  assert (Hne : i <> 0) by (destruct Hi; subst; discriminate).
  rewrite normpath_abs.
  - now rewrite initial_slashes_normal, components_normal.
  - destruct Hi as [-> | ->]; cbn [Str.mul]; now rewrite app_cons, isabs_cons.
Qed.

(** What [abspath] normalises is an absolute path. *)
Lemma abspath_argument_isabs cwd0 path :
  isabs cwd0 = true ->
  isabs (if isabs path then path else join cwd0 path) = true.
Proof.
  intros Hcwd. destruct (isabs path) eqn:Hpath; [exact Hpath|].
  destruct (join_relative cwd0 Hcwd) as (pre & Hpre & _ & Hjoin).
  rewrite Hjoin by exact Hpath.
  rewrite isabs_app; [exact Hpre | intros ->; discriminate].
Qed.

Lemma abspath_normal cwd0 path :
  isabs cwd0 = true ->
  exists i cs,
    (i = 1 \/ i = 2) /\ Forall name_component cs
    /\ abspath cwd0 path = Str.mul sep i +:+ Str.join "/" cs.
Proof.
  intros Hcwd. unfold abspath.
  set (q := if isabs path then path else join cwd0 path).
  assert (Hq : isabs q = true) by now apply abspath_argument_isabs.
  exists (initial_slashes q), (components q).
  split; [now apply initial_slashes_abs|].
  split; [apply components_names | now apply normpath_abs].
Qed.

Lemma abspath_fixed cwd0 path :
  isabs cwd0 = true ->
  normpath (abspath cwd0 path) = abspath cwd0 path.
Proof.
  intros (i & cs & Hi & Hcs & ->)%(abspath_normal _ path).
  now apply normpath_normal.
Qed.

(** The directory part of a path is absolute exactly when the path is. *)
Lemma dirname_isabs f : isabs (dirname f) = isabs f.
Proof.
  destruct (path_head_base f) as (h & b & -> & Hb & Hh).
  rewrite dirname_app by assumption.
  destruct Hh as [-> | Hh].
  { change ("" +:+ b) with b. cbn. symmetry. now apply isabs_without. }
  assert (Hne : h <> "") by (intros ->; discriminate).
  rewrite (isabs_app h b) by exact Hne.
  destruct (String.eqb h "") eqn:He; [reflexivity|]. cbn [negb andb].
  destruct (String.eqb h (Str.mul sep (String.length h))) eqn:Hrun;
    [reflexivity|]. cbn [negb].
  destruct (rstrip_run sep h) as [k Hk].
  assert (Hd : Str.rstrip sep h <> "").
  { intros Hd. rewrite Hd in Hk.
    change ("" +:+ Str.mul sep k) with (Str.mul sep k) in Hk.
    apply String.eqb_neq in Hrun. apply Hrun.
    rewrite Hk at 1. now rewrite Hk, mul_length. }
  rewrite Hk at 2. now rewrite isabs_app.
Qed.

Lemma dirname_basename f : dirname (basename f) = "".
Proof.
  destruct (path_head_base f) as (h & b & -> & Hb & Hh).
  rewrite basename_app by assumption.
  change b with ("" +:+ b). rewrite dirname_app by auto. reflexivity.
Qed.

End NormalForm.

(** X6: from an absolute working directory, [abspath] returns a normal
    form: one or two leading separators followed by names (none empty, [.]
    or [..]) joined by single separators; normalising it again, from
    whatever working directory, changes nothing. *)
Theorem abspath_normal_form cwd0 path :
  Posixpath.isabs cwd0 = true ->
  (exists i cs,
     (i = 1 \/ i = 2) /\ Forall Posixpath.name_component cs
     /\ Posixpath.abspath cwd0 path
        = Str.mul "/" i +:+ Str.join "/" cs)
  /\ Posixpath.normpath (Posixpath.abspath cwd0 path)
     = Posixpath.abspath cwd0 path
  /\ forall cwd', Posixpath.abspath cwd' (Posixpath.abspath cwd0 path)
                  = Posixpath.abspath cwd0 path.
Proof.
  intros Hcwd. split; [now apply abspath_normal|].
  split; [now apply abspath_fixed|].
  intros cwd'. unfold Posixpath.abspath at 1.
  rewrite abspath_isabs by exact Hcwd. now apply abspath_fixed.
Qed.

Lemma abspath_normal_form_witness :
  (exists i cs,
     (i = 1 \/ i = 2) /\ Forall Posixpath.name_component cs
     /\ Posixpath.abspath "/repo/ci" "fireci//../fireci/./tests/.."
        = Str.mul "/" i +:+ Str.join "/" cs)
  /\ Posixpath.normpath
       (Posixpath.abspath "/repo/ci" "fireci//../fireci/./tests/..")
     = Posixpath.abspath "/repo/ci" "fireci//../fireci/./tests/.."
  /\ forall cwd',
       Posixpath.abspath cwd'
         (Posixpath.abspath "/repo/ci" "fireci//../fireci/./tests/..")
       = Posixpath.abspath "/repo/ci" "fireci//../fireci/./tests/..".
Proof.
  apply (abspath_normal_form "/repo/ci" "fireci//../fireci/./tests/..").
  reflexivity.
Defined.

(** ** No package twice *)

Section NoDuplicates.
Import Setuptools.

(** The text in front of the names found at relative path [rel]. *)
Let lead (rel : list string) : string :=
  if Str.is_nil rel then "" else Str.join "." rel +:+ ".".

Let under (rel : list string) (d : node) : list string :=
  if descends [] rel d
  then find_iter [] ["*"] (rel ++ [node_name d]) d
  else [].

Lemma in_dir_names d sub entries :
  In (Dir d sub) entries -> d ∈ dir_names entries.
Proof.
  intros Hin. apply list_elem_of_In, in_flat_map.
  exists (Dir d sub). split; [exact Hin | now left].
Qed.

Lemma yielded_form rel entries package :
  package ∈ yielded [] ["*"] rel entries ->
  exists d sub,
    In (Dir d sub) entries /\ Str.contains "." d = false
    /\ package = lead rel +:+ d.
Proof.
  intros (n & Hin & Hvalid & ->)%list_elem_of_In%in_yielded_all.
  destruct (valid_package_dir_inv _ Hvalid) as (d & sub & -> & Hdot & _).
  exists d, sub. split; [exact Hin|]. split; [exact Hdot|].
  unfold package_name. now rewrite join_below.
Qed.

Lemma below_form rel entries package :
  package ∈ flat_map (under rel) entries ->
  exists d sub rest,
    In (Dir d sub) entries /\ Str.contains "." d = false
    /\ package ∈ under rel (Dir d sub)
    /\ package = lead rel +:+ d +:+ String "." rest.
Proof.
  intros (n & Hin & Hp)%list_elem_of_In%in_flat_map.
  unfold under in Hp. rewrite descends_all in Hp.
  destruct (valid_package_dir n) eqn:Hvalid; [|contradiction].
  destruct (valid_package_dir_inv _ Hvalid) as (d & sub & -> & Hdot & _).
  destruct (find_iter_all_sound _ _ _ Hp) as (names & Hne & Hform & _).
  exists d, sub, (Str.join "." names).
  split; [exact Hin|]. split; [exact Hdot|]. split.
  - apply list_elem_of_In. unfold under.
    now rewrite descends_all, Hvalid.
  - rewrite Hform. cbn [node_name].
    rewrite <- List.app_assoc. cbn [app].
    rewrite join_below by discriminate. fold (lead rel). f_equal.
    change (d :: names) with ([d] ++ names).
    rewrite join_app_ne by (discriminate || exact Hne). reflexivity.
Qed.

Lemma yielded_NoDup rel entries :
  NoDup (dir_names entries) -> NoDup (yielded [] ["*"] rel entries).
Proof.
  induction entries as [|n ns IH]; intros Hnames; [constructor|].
  unfold yielded in *. cbn [flat_map].
  destruct n as [f|d sub]; [now apply IH|].
  cbn [dir_names flat_map app] in Hnames.
  fold (dir_names ns) in Hnames.
  apply NoDup_cons in Hnames as [Hfresh Hnames].
  destruct (valid_package_dir (Dir d sub)); [|now apply IH].
  rewrite filter_call_star, filter_call_nil. cbn [andb negb app node_name].
  apply NoDup_cons. split; [|now apply IH].
  intros (d2 & sub2 & Hin2 & _ & Heq)%yielded_form.
  unfold package_name in Heq. rewrite join_below in Heq by discriminate.
  apply String.app_inj in Heq. cbn in Heq. subst d2.
  apply Hfresh. eapply in_dir_names, Hin2.
Qed.

Lemma below_NoDup rel entries :
  NoDup (dir_names entries) ->
  Forall (fun d => NoDup (under rel d)) entries ->
  NoDup (flat_map (under rel) entries).
Proof.
  induction entries as [|n ns IH]; intros Hnames Hall; [constructor|].
  apply Forall_cons in Hall as [Hn Hns].
  cbn [flat_map].
  destruct n as [f|d sub]; [now apply IH|].
  cbn [dir_names flat_map app] in Hnames.
  fold (dir_names ns) in Hnames.
  apply NoDup_cons in Hnames as [Hfresh Hnames].
  apply NoDup_app. split; [exact Hn|]. split; [|now apply IH].
  intros package Hhere (d2 & sub2 & rest2 & Hin2 & Hdot2 & _ & Heq)%below_form.
  assert (Hone : package ∈ flat_map (under rel) [Dir d sub])
    by (cbn [flat_map]; now rewrite List.app_nil_r).
  apply below_form in Hone
    as (d1 & sub1 & rest1 & [[= <- <-] | []] & Hdot1 & _ & ->).
  apply String.app_inj in Heq.
  apply app_sep_inj_first in Heq as [-> _]; [|assumption..].
  apply Hfresh. eapply in_dir_names, Hin2.
Qed.

Lemma find_iter_all_NoDup n :
  forall rel, unique_dirs n = true -> NoDup (find_iter [] ["*"] rel n).
Proof.
  induction n as [name|name entries IH] using node_forall_ind;
    intros rel Hunique; [constructor|].
  cbn [unique_dirs] in Hunique.
  apply andb_true_iff in Hunique as [Hnames%bool_decide_eq_true Hsub].
  rewrite find_iter_Dir. apply NoDup_app. split; [|split].
  - now apply yielded_NoDup.
  - intros package (d1 & sub1 & _ & Hdot1 & ->)%yielded_form
      (d2 & sub2 & rest & _ & _ & _ & Heq)%below_form.
    apply String.app_inj in Heq. rewrite Heq, contains_append in Hdot1.
    cbn [Str.contains] in Hdot1. rewrite Ascii.eqb_refl in Hdot1.
    now rewrite orb_true_r in Hdot1.
  - apply (below_NoDup rel); [exact Hnames|].
    rewrite forallb_forall in Hsub.
    rewrite Forall_forall in IH |- *. intros d Hd. unfold under.
    destruct (descends [] rel d); [|constructor].
    apply IH; [exact Hd|]. apply Hsub. now apply list_elem_of_In.
Qed.

End NoDuplicates.

(** X12: in a tree where no directory lists two sub-directories of one name,
    no package is discovered twice, whatever the exclusion list. *)
Theorem find_packages_NoDup exclude entries :
  unique_dirs (Dir "." entries) = true ->
  NoDup (Setuptools.find_packages exclude entries).
Proof.
  intros Hunique.
  apply (sublist_NoDup _ (Setuptools.importable_packages entries)).
  - now apply find_iter_all_NoDup.
  - apply find_iter_sublist.
Qed.

Lemma find_packages_NoDup_witness :
  NoDup (Setuptools.find_packages ["tests"] Sample.tree_with_tests).
Proof.
  apply (find_packages_NoDup ["tests"] Sample.tree_with_tests).
  reflexivity.
Defined.

(** ** [dirname] *)

Section Dirname.
Import Posixpath.

Lemma normpath_step_skip i acc : normpath_step i acc "" = acc.
Proof. reflexivity. Qed.

Lemma fold_skip_separators i k b acc :
  fold_left (normpath_step i) (Str.split sep (Str.mul sep k +:+ b)) acc
  = fold_left (normpath_step i) (Str.split sep b) acc.
Proof.
  induction k as [|k IH]; [reflexivity|].
  cbn [Str.mul]. rewrite app_cons.
  change (String sep ?t) with ("" +:+ String sep t).
  rewrite split_app_sep. cbn [Str.split app fold_left].
  now rewrite normpath_step_skip.
Qed.

(** Several separators in a row count as one. *)
Lemma normpath_separators d k b :
  d <> "" -> Str.endswith sep d = false ->
  normpath (d +:+ Str.mul sep (S k) +:+ b) = normpath (d +:+ "/" +:+ b).
Proof.
  intros Hd Hopen. unfold normpath.
  destruct d as [|a d]; [congruence|].
  rewrite !app_cons. change (String.eqb (String a _) "") with false.
  cbv iota. rewrite <- !app_cons.
  rewrite !initial_slashes_app_open by assumption.
  cbn [Str.mul]. rewrite (app_cons sep (Str.mul sep k) b).
  change ("/" +:+ b) with (String sep b).
  rewrite !split_app_sep, !fold_left_app, fold_skip_separators.
  reflexivity.
Qed.

Lemma dirname_cases f :
  exists h b k,
    f = h +:+ b /\ Str.contains sep b = false /\ basename f = b
    /\ ((dirname f = h /\ (h = "" \/ Str.endswith sep h = true))
        \/ (h = dirname f +:+ Str.mul sep (S k)
            /\ dirname f <> "" /\ Str.endswith sep (dirname f) = false)).
Proof.
  destruct (path_head_base f) as (h & b & -> & Hb & Hh).
  rewrite dirname_app, basename_app by assumption.
  destruct (String.eqb h "") eqn:He.
  { exists h, b, 0. auto 6. }
  cbn [negb andb].
  destruct (String.eqb h (Str.mul sep (String.length h))) eqn:Hrun.
  { exists h, b, 0. auto 6. }
  cbn [negb].
  destruct (rstrip_run sep h) as [k Hk].
  assert (Hopen : Str.endswith sep (Str.rstrip sep h) = false)
    by apply rstrip_not_endswith.
  assert (Hd : Str.rstrip sep h <> "").
  { intros Hd. rewrite Hd in Hk.
    change ("" +:+ Str.mul sep k) with (Str.mul sep k) in Hk.
    apply String.eqb_neq in Hrun. apply Hrun.
    rewrite Hk at 1. now rewrite Hk, mul_length. }
  destruct k as [|k].
  { rewrite app_nil_r in Hk. rewrite <- Hk in Hopen.
    destruct Hh as [-> | Hh]; [discriminate | congruence]. }
  exists h, b, k. split; [reflexivity|]. split; [exact Hb|].
  split; [reflexivity|]. right. auto.
Qed.

End Dirname.

(** X14: [dirname] returns a prefix of the path, absolute exactly when the
    path is, and joined with the last component it names the place the
    path names: both normalise to the same text. *)
Theorem dirname_is_directory_part f :
  (exists rest, f = Posixpath.dirname f +:+ rest)
  /\ Posixpath.isabs (Posixpath.dirname f) = Posixpath.isabs f
  /\ Posixpath.normpath
       (Posixpath.join (Posixpath.dirname f) (Posixpath.basename f))
     = Posixpath.normpath f.
Proof.
  split; [|split; [apply dirname_isabs|]].
  - destruct (dirname_cases f) as (h & b & k & Hf & _ & _ & Hd).
    destruct Hd as [[Hd _] | [Hh _]].
    + exists b. now rewrite Hd.
    + exists (Str.mul "/" (S k) +:+ b). rewrite Hf at 1. rewrite Hh at 1.
      now rewrite app_assoc.
  - destruct (dirname_cases f) as (h & b & k & Hf & Hb & -> & Hd).
    assert (Hrel : Str.startswith "/" b = false)
      by now apply isabs_without.
    unfold Posixpath.join. rewrite Hrel.
    destruct Hd as [[-> Hh] | (Hh & Hne & Hopen)].
    + destruct Hh as [-> | Hh]; [now rewrite Hf|].
      rewrite Hh, orb_true_r. now rewrite Hf.
    + apply String.eqb_neq in Hne as Hneb. rewrite Hneb, Hopen. cbn [orb].
      rewrite Hf at 2. rewrite Hh, app_assoc.
      symmetry. now apply normpath_separators.
Qed.

(** * Loading the descriptor *)

(** ** The path lookup of the kernel *)

Section Lookup.
Import Posixpath.

Variable fs : filesystem.

Lemma namei_nil n here : Fs.namei fs n here [] = Fs.Reached here.
Proof. now destruct n. Qed.

Lemma namei_cons n here c rest :
  Fs.namei fs n here (c :: rest)
  = if String.eqb c "" || String.eqb c "." then Fs.namei fs n here rest
    else if negb (Fs.searchable fs here) then Fs.Errno EACCES
    else if String.eqb c ".." then Fs.namei fs n (removelast here) rest
    else
      match Fs.link_at fs (here ++ [c]) with
      | Some target =>
          if String.eqb target "" then Fs.Errno ENOENT
          else
            match n with
            | 0 => Fs.Errno ELOOP
            | S m =>
                Fs.namei fs m (if isabs target then [] else here)
                  (Str.split sep target ++ rest)
            end
      | None =>
          match Fs.resolve (fs_tree fs) here with
          | None => Fs.Errno ENOENT
          | Some listing =>
              match Fs.subdir c listing with
              | Some _ => Fs.namei fs n (here ++ [c]) rest
              | None =>
                  Fs.Errno
                    (if Fs.has_file c listing then ENOTDIR else ENOENT)
              end
          end
      end.
Proof. now destruct n. Qed.

Lemma steps_name c :
  Str.contains sep c = false ->
  String.eqb c "" || String.eqb c "." = false ->
  String.eqb c ".." = false ->
  name_component c.
Proof.
  intros Hsep [H1 H2]%orb_false_iff H3.
  apply String.eqb_neq in H1, H2, H3. repeat split; assumption.
Qed.

Lemma name_steps c :
  name_component c ->
  String.eqb c "" || String.eqb c "." = false /\ String.eqb c ".." = false.
Proof.
  intros (_ & H1%String.eqb_neq & H2%String.eqb_neq & H3%String.eqb_neq).
  now rewrite H1, H2, H3.
Qed.

(** *** Places *)

Lemma physical_snoc_inv here c :
  Fs.physical fs (here ++ [c]) ->
  Fs.physical fs here /\ name_component c
  /\ Fs.searchable fs here = true
  /\ Fs.link_at fs (here ++ [c]) = None
  /\ exists listing sub,
       Fs.resolve (fs_tree fs) here = Some listing
       /\ Fs.subdir c listing = Some sub.
Proof.
  intros H. inversion H as [Heq | here' c' listing sub H1 H2 H3 H4 H5 H6 Heq].
  - now destruct here.
  - apply app_inj_tail in Heq as [-> ->]. eauto 10.
Qed.

Lemma physical_removelast here :
  Fs.physical fs here -> Fs.physical fs (removelast here).
Proof.
  intros [|here' c listing sub H _ _ _ _ _]; [constructor|].
  now rewrite removelast_last.
Qed.

Lemma physical_prefix here more :
  Fs.physical fs (here ++ more) -> Fs.physical fs here.
Proof.
  induction more as [|c more IH] using rev_ind.
  - now rewrite List.app_nil_r.
  - rewrite List.app_assoc. intros [H _]%physical_snoc_inv. auto.
Qed.

Lemma physical_names here :
  Fs.physical fs here -> Forall name_component here.
Proof.
  induction 1 as [|here c listing sub _ IH Hc _ _ _ _]; [constructor|].
  apply Forall_app. split; [exact IH | now constructor].
Qed.

Lemma resolve_snoc tree here c :
  Fs.resolve tree (here ++ [c])
  = match Fs.resolve tree here with
    | Some listing => Fs.subdir c listing
    | None => None
    end.
Proof.
  revert tree. induction here as [|a here IH]; intros tree; cbn.
  - now destruct (Fs.subdir c tree).
  - destruct (Fs.subdir a tree); [apply IH | reflexivity].
Qed.

Lemma physical_resolve here :
  Fs.physical fs here -> is_Some (Fs.resolve (fs_tree fs) here).
Proof.
  intros [|here' c listing sub _ _ _ _ Hl Hs]; [now eexists|].
  rewrite resolve_snoc, Hl. now exists sub.
Qed.

(** *** One step of a lookup *)

(** What a successful lookup did with its first component. *)
Lemma namei_step n here c rest dir :
  Fs.physical fs here -> Str.contains sep c = false ->
  Fs.namei fs n here (c :: rest) = Fs.Reached dir ->
  (Fs.steps c = false /\ Fs.namei fs n here rest = Fs.Reached dir)
  \/ (c = ".." /\ Fs.namei fs n (removelast here) rest = Fs.Reached dir)
  \/ (name_component c /\ Fs.physical fs (here ++ [c])
      /\ Fs.namei fs n (here ++ [c]) rest = Fs.Reached dir)
  \/ (exists target m,
        Fs.link_at fs (here ++ [c]) = Some target /\ n = S m
        /\ Fs.namei fs m (if isabs target then [] else here)
             (Str.split sep target ++ rest) = Fs.Reached dir).
Proof.
  intros Hhere Hsep. rewrite namei_cons. unfold Fs.steps.
  destruct (String.eqb c "" || String.eqb c ".") eqn:Hskip; [now left|].
  destruct (Fs.searchable fs here) eqn:Hsearch; [|discriminate].
  cbn [negb].
  destruct (String.eqb c "..") eqn:Hup.
  { apply String.eqb_eq in Hup. right. now left. }
  destruct (Fs.link_at fs (here ++ [c])) as [target|] eqn:Hlink.
  - destruct (String.eqb target ""); [discriminate|].
    destruct n as [|m]; [discriminate|].
    intros Hrest. right. right. right. now exists target, m.
  - destruct (Fs.resolve (fs_tree fs) here) as [listing|] eqn:Hl;
      [|discriminate].
    destruct (Fs.subdir c listing) as [sub|] eqn:Hs; [|discriminate].
    intros Hrest. right. right. left.
    assert (Hname : name_component c) by now apply steps_name.
    split; [exact Hname|]. split; [|exact Hrest].
    now apply (Fs.physical_step fs here c listing sub).
Qed.

(** A lookup that starts from a place ends in a place. *)
Lemma namei_physical n :
  forall here comps dir,
    Fs.physical fs here ->
    Forall (fun c => Str.contains sep c = false) comps ->
    Fs.namei fs n here comps = Fs.Reached dir ->
    Fs.physical fs dir.
Proof.
  induction n as [n IHn] using lt_wf_ind.
  intros here comps. revert here.
  induction comps as [|c rest IH]; intros here dir Hhere Hfree.
  - rewrite namei_nil. now intros [= <-].
  - apply Forall_cons in Hfree as [Hc Hrest].
    intros [[_ H] | [[_ H] | [(_ & Hnew & H) | (target & m & _ & -> & H)]]]
      %namei_step; [| | | |assumption..].
    + now apply (IH here).
    + apply (IH (removelast here)); [|assumption..].
      now apply physical_removelast.
    + now apply (IH (here ++ [c])).
    + apply (IHn m (Nat.lt_succ_diag_r m) _ _ _) in H; [exact H| |].
      * destruct (isabs target); [constructor | exact Hhere].
      * apply Forall_app. split; [apply split_pieces_without_sep|exact Hrest].
Qed.

(** Looking a place up by its names reaches it. *)
Lemma namei_replay n more :
  forall here,
    Fs.physical fs (here ++ more) ->
    Fs.namei fs n here more = Fs.Reached (here ++ more).
Proof.
  induction more as [|c rest IH]; intros here Hall.
  - rewrite namei_nil. now rewrite List.app_nil_r.
  - replace (here ++ c :: rest) with ((here ++ [c]) ++ rest) in *
      by now rewrite <- List.app_assoc.
    pose proof (physical_prefix _ _ Hall) as Hstep.
    apply physical_snoc_inv in Hstep
      as (_ & Hname & Hsearch & Hlink & listing & sub & Hl & Hs).
    destruct (name_steps _ Hname) as [Hskip Hup].
    rewrite namei_cons, Hskip, Hsearch, Hup, Hlink, Hl, Hs.
    now apply IH.
Qed.

Lemma filter_twice {A} (f : A -> bool) l :
  List.filter f (List.filter f l) = List.filter f l.
Proof.
  induction l as [|x l IH]; [reflexivity|]. cbn [List.filter].
  destruct (f x) eqn:Hx; [|exact IH]. cbn [List.filter].
  now rewrite Hx, IH.
Qed.

(** Components that a lookup skips can be left out. *)
Lemma namei_filter n :
  forall here comps,
    Fs.namei fs n here comps
    = Fs.namei fs n here (List.filter Fs.steps comps).
Proof.
  induction n as [n IHn] using lt_wf_ind.
  intros here comps. revert here.
  induction comps as [|c rest IH]; intros here; [reflexivity|].
  cbn [List.filter]. unfold Fs.steps at 1.
  destruct (String.eqb c "" || String.eqb c ".") eqn:Hskip; cbn [negb].
  - rewrite namei_cons, Hskip. apply IH.
  - rewrite !namei_cons, Hskip.
    destruct (negb (Fs.searchable fs here)); [reflexivity|].
    destruct (String.eqb c ".."); [apply IH|].
    destruct (Fs.link_at fs (here ++ [c])) as [target|].
    + destruct (String.eqb target ""); [reflexivity|].
      destruct n as [|m]; [reflexivity|].
      rewrite (IHn m (Nat.lt_succ_diag_r m) _ (_ ++ rest)).
      rewrite (IHn m (Nat.lt_succ_diag_r m) _ (_ ++ List.filter _ rest)).
      now rewrite !List.filter_app, filter_twice.
    + destruct (Fs.resolve (fs_tree fs) here) as [listing|]; [|reflexivity].
      destruct (Fs.subdir c listing); [apply IH | reflexivity].
Qed.

End Lookup.

(** *** Lookups and normalised text *)

Section LookupText.
Import Posixpath.

Variable fs : filesystem.

Lemma filter_steps_names cs :
  Forall name_component cs -> List.filter Fs.steps cs = cs.
Proof.
  induction 1 as [|c cs Hc _ IH]; [reflexivity|]. cbn [List.filter].
  unfold Fs.steps at 1. destruct (name_steps _ Hc) as [-> _]. cbn [negb].
  now rewrite IH.
Qed.

Lemma split_cons_sep t : Str.split sep (String sep t) = "" :: Str.split sep t.
Proof. apply (split_app_sep sep "" t). Qed.

(** The components of a normalised text that a lookup does not skip are
    the names it shows. *)
Lemma filter_normal_text i cs :
  Forall name_component cs ->
  List.filter Fs.steps (Str.split sep (Str.mul sep i +:+ Str.join "/" cs))
  = cs.
Proof.
  intros Hcs. induction i as [|i IH].
  - change (Str.mul sep 0 +:+ ?t) with t.
    destruct cs as [|c cs]; [reflexivity|].
    rewrite (split_join sep) by
      (discriminate || (eapply Forall_impl; [exact Hcs|]; now intros ? [? ?])).
    now apply filter_steps_names.
  - cbn [Str.mul]. rewrite app_cons, split_cons_sep. exact IH.
Qed.

Lemma namei_normal_text n i cs :
  Forall name_component cs ->
  Fs.namei fs n [] (Str.split sep (Str.mul sep i +:+ Str.join "/" cs))
  = Fs.namei fs n [] cs.
Proof. intros Hcs. now rewrite namei_filter, filter_normal_text. Qed.

Lemma chdir_physical path dir :
  Fs.chdir fs path = Fs.Reached dir ->
  Fs.physical fs dir /\ Fs.searchable fs dir = true.
Proof.
  unfold Fs.chdir. destruct (String.eqb path ""); [discriminate|].
  destruct (Fs.namei fs Fs.MAXSYMLINKS [] _) as [d|e] eqn:Hwalk;
    [|discriminate].
  destruct (Fs.searchable fs d) eqn:Hsearch; [|discriminate].
  intros [= <-]. split; [|exact Hsearch].
  eapply namei_physical; [constructor | apply split_pieces_without_sep|].
  exact Hwalk.
Qed.

Lemma path_of_normal dir : Fs.path_of dir = Str.mul sep 1 +:+ Str.join "/" dir.
Proof. reflexivity. Qed.

(** [os.chdir(os.getcwd())] stays where the process is. *)
Lemma chdir_path_of dir :
  Fs.physical fs dir -> Fs.searchable fs dir = true ->
  Fs.chdir fs (Fs.path_of dir) = Fs.Reached dir.
Proof.
  intros Hdir Hsearch. unfold Fs.chdir.
  change (String.eqb (Fs.path_of dir) "") with false. cbv iota.
  rewrite path_of_normal, namei_normal_text by now apply (physical_names fs).
  rewrite (namei_replay fs _ dir []) by exact Hdir.
  cbn [app]. now rewrite Hsearch.
Qed.

Lemma lookup_dir_path_of path dir :
  Fs.chdir fs path = Fs.Reached dir ->
  Fs.lookup_dir fs (Fs.path_of dir) = Fs.lookup_dir fs path.
Proof.
  intros Hpath. destruct (chdir_physical _ _ Hpath) as [Hdir Hsearch].
  unfold Fs.lookup_dir. now rewrite chdir_path_of, Hpath.
Qed.

Lemma lookup_dir_Some path here :
  Fs.lookup_dir fs path = Some here ->
  exists dir,
    Fs.chdir fs path = Fs.Reached dir
    /\ Fs.resolve (fs_tree fs) dir = Some here.
Proof.
  unfold Fs.lookup_dir. destruct (Fs.chdir fs path) as [dir|e];
    [|discriminate]. intros Hhere. now exists dir.
Qed.

(** The text of a place is a normal form. *)
Lemma path_of_isabs dir : isabs (Fs.path_of dir) = true.
Proof. unfold Fs.path_of. now rewrite app_cons, isabs_cons. Qed.

Lemma normpath_path_of dir :
  Fs.physical fs dir -> normpath (Fs.path_of dir) = Fs.path_of dir.
Proof.
  intros Hdir%(physical_names fs). rewrite path_of_normal.
  apply normpath_normal; auto.
Qed.

(** *** Lookups without symbolic links *)

Lemma normpath_step_skip_steps acc c :
  Fs.steps c = false -> normpath_step 1 acc c = acc.
Proof.
  unfold Fs.steps, normpath_step. intros ->%negb_false_iff. reflexivity.
Qed.

Lemma normpath_step_up acc :
  Forall name_component acc -> normpath_step 1 acc ".." = removelast acc.
Proof.
  intros Hacc. unfold normpath_step. cbn [String.eqb orb negb Nat.eqb andb].
  change (String.eqb ".." "") with false.
  change (String.eqb ".." ".") with false.
  change (String.eqb ".." "..") with true. cbn [orb negb].
  destruct acc as [|a acc]; [reflexivity|]. cbn [Str.is_nil negb andb].
  assert (Hlast : String.eqb (List.last (a :: acc) "") ".." = false).
  { apply String.eqb_neq, last_name; [exact Hacc | discriminate]. }
  now rewrite Hlast.
Qed.

(** Without symbolic links a lookup ends where the text, normalised, says. *)
Lemma namei_lexical n comps :
  fs_links fs = [] ->
  forall here dir,
    Fs.physical fs here ->
    Forall (fun c => Str.contains sep c = false) comps ->
    Fs.namei fs n here comps = Fs.Reached dir ->
    dir = fold_left (normpath_step 1) comps here.
Proof.
  intros Hlinks. induction comps as [|c rest IH]; intros here dir Hhere Hfree.
  - rewrite namei_nil. now intros [= <-].
  - apply Forall_cons in Hfree as [Hc Hrest]. cbn [fold_left].
    intros [[Hskip H] | [[-> H] | [(Hname & Hnew & H) | (t & m & Hl & _)]]]
      %namei_step; [| | | |assumption..].
    + rewrite normpath_step_skip_steps by exact Hskip. now apply IH.
    + rewrite normpath_step_up by now apply (physical_names fs).
      apply IH; [now apply physical_removelast | assumption..].
    + rewrite normpath_step_name by exact Hname. now apply IH.
    + unfold Fs.link_at in Hl. now rewrite Hlinks in Hl.
Qed.

Lemma fold_without_dotdot comps :
  (".." ∉ comps) ->
  Forall (fun c => Str.contains sep c = false) comps ->
  forall acc,
    fold_left (normpath_step 1) comps acc = acc ++ List.filter Fs.steps comps.
Proof.
  induction comps as [|c rest IH]; intros Hup Hfree acc.
  - now rewrite List.app_nil_r.
  - apply Forall_cons in Hfree as [Hc Hrest].
    apply not_elem_of_cons in Hup as [Hne Hup].
    cbn [fold_left List.filter].
    destruct (Fs.steps c) eqn:Hsteps.
    + assert (Hname : name_component c).
      { unfold Fs.steps in Hsteps. apply negb_true_iff in Hsteps.
        apply steps_name; [assumption..|].
        apply String.eqb_neq. congruence. }
      rewrite normpath_step_name, IH by assumption.
      now rewrite <- List.app_assoc.
    + rewrite normpath_step_skip_steps by exact Hsteps. now apply IH.
Qed.

(** When no symbolic link is stepped back through, a lookup of a text and a
    lookup of its normal form end in the same place. *)
Lemma namei_components n q dir :
  fs_links fs = [] \/ (".." ∉ Str.split sep q) ->
  Fs.namei fs n [] (Str.split sep q) = Fs.Reached dir ->
  Fs.namei fs n [] (components q) = Fs.Reached dir.
Proof.
  intros [Hlinks | Hup] Hwalk.
  - assert (Hdir : Fs.physical fs dir).
    { eapply namei_physical;
        [constructor | apply split_pieces_without_sep | exact Hwalk]. }
    apply (namei_lexical _ _ Hlinks) in Hwalk;
      [|constructor | apply split_pieces_without_sep].
    unfold components. rewrite <- Hwalk.
    now apply (namei_replay fs n dir []).
  - unfold components.
    rewrite fold_without_dotdot
      by (assumption || apply split_pieces_without_sep).
    cbn [app]. now rewrite <- namei_filter.
Qed.

End LookupText.

(** ** The directory of the descriptor *)

Section DescriptorDirectory.
Import Posixpath.

Variable fs : filesystem.

(** The text of [file] up to its last separator. *)
Let head (file : string) : string :=
  Str.take (Str.rfind_succ sep file) file.

Lemma head_text file h b :
  file = h +:+ b -> Str.contains sep b = false ->
  h = "" \/ Str.endswith sep h = true ->
  head file = h.
Proof.
  intros -> Hb Hh. unfold head.
  now rewrite rfind_succ_head, take_app.
Qed.

Lemma head_cases file :
  exists k,
    (dirname file = head file
     /\ (head file = "" \/ Str.endswith sep (head file) = true))
    \/ (head file = dirname file +:+ Str.mul sep (S k)
        /\ dirname file <> ""
        /\ Str.endswith sep (dirname file) = false).
Proof.
  destruct (dirname_cases file) as (h & b & k & Hf & Hb & _ & Hd).
  exists k.
  destruct Hd as [[Hd Hh] | (Hh & Hne & Hopen)].
  - left. rewrite (head_text file h b) by assumption. auto.
  - right. rewrite (head_text file h b); [now auto | exact Hf | exact Hb |].
    right. rewrite Hh, endswith_app by discriminate.
    apply endswith_mul. discriminate.
Qed.

Lemma join_absolute a b : isabs b = true -> join a b = b.
Proof. unfold join, isabs. now intros ->. Qed.

(** What [abspath] normalises for the directory part and what the kernel
    looks up for the file have the same components. *)
Lemma head_components cwd0 file :
  isabs cwd0 = true ->
  components (if isabs (dirname file) then dirname file
              else join cwd0 (dirname file))
  = components (join cwd0 (head file)).
Proof.
  intros Hcwd. destruct (head_cases file) as [k [[Hd _] | (Hh & Hne & Hopen)]].
  - rewrite <- Hd. destruct (isabs (dirname file)) eqn:Habs; [|reflexivity].
    now rewrite join_absolute.
  - rewrite Hh.
    destruct (isabs (dirname file)) eqn:Habs.
    + rewrite join_absolute by now rewrite isabs_app.
      now rewrite components_trailing.
    + destruct (join_relative cwd0 Hcwd) as (pre & _ & _ & Hjoin).
      rewrite !Hjoin by (rewrite ?isabs_app; assumption).
      now rewrite <- app_assoc, components_trailing.
Qed.

Lemma split_head_dotdot file :
  (".." ∉ Str.split sep file) -> ".." ∉ Str.split sep (head file).
Proof.
  intros Hfile Hhead. apply Hfile. clear Hfile.
  destruct (path_head_base file) as (h & b & Hf & Hb & Hh).
  rewrite (head_text file h b) in Hhead by assumption.
  rewrite Hf. destruct Hh as [-> | [h0 ->]%endswith_inv].
  - cbn in Hhead. apply list_elem_of_singleton in Hhead. discriminate.
  - rewrite split_app_sep in Hhead. rewrite app_assoc.
    change (String sep "" +:+ b) with (String sep b).
    rewrite split_app_sep, elem_of_app.
    apply elem_of_app in Hhead as [Hhead | Hhead]; [now left|].
    cbn in Hhead. apply list_elem_of_singleton in Hhead. discriminate.
Qed.

Lemma split_join_dotdot cwd0 text :
  (".." ∉ Str.split sep cwd0) -> (".." ∉ Str.split sep text) ->
  ".." ∉ Str.split sep (join cwd0 text).
Proof.
  intros Hcwd Htext. unfold join.
  destruct (Str.startswith "/" text); [exact Htext|].
  destruct (String.eqb cwd0 "") eqn:He.
  { apply String.eqb_eq in He as ->. exact Htext. }
  cbn [orb]. destruct (Str.endswith sep cwd0) eqn:Hend.
  - apply endswith_inv in Hend as [c ->]. rewrite app_assoc.
    change (String sep "" +:+ text) with (String sep text).
    rewrite split_app_sep. intros [H | H]%elem_of_app; [|now apply Htext].
    apply Hcwd. rewrite split_app_sep. rewrite elem_of_app. now left.
  - change ("/" +:+ text) with (String sep text).
    rewrite split_app_sep. intros [H | H]%elem_of_app; auto.
Qed.

(** When no symbolic link is stepped back through, [os.chdir] enters the
    directory in which the kernel finds the descriptor file. *)
Lemma chdir_containing_directory cwd0 file dir :
  isabs cwd0 = true ->
  Fs.steps_plainly fs cwd0 file ->
  Fs.containing_directory fs cwd0 file = Some dir ->
  Fs.chdir fs (abspath cwd0 (dirname file)) = Fs.Reached dir.
Proof.
  intros Hcwd Hplain. unfold Fs.containing_directory. fold (head file).
  destruct (Fs.namei fs Fs.MAXSYMLINKS [] _) as [d|e] eqn:Hwalk;
    [|discriminate].
  destruct (Fs.resolve (fs_tree fs) d) as [listing|]; [|discriminate].
  destruct (Fs.searchable fs d) eqn:Hsearch; [|discriminate]. cbn [andb].
  destruct (Fs.has_file _ listing); [|discriminate]. intros [= ->].
  apply namei_components in Hwalk.
  2:{ destruct Hplain as [Hlinks | [Hc Hf]]; [now left | right].
      now apply split_join_dotdot, split_head_dotdot. }
  unfold Fs.chdir, abspath.
  set (q := if isabs (dirname file) then dirname file
            else join cwd0 (dirname file)) in *.
  assert (Hq : isabs q = true) by now apply abspath_argument_isabs.
  assert (Hne : String.eqb (normpath q) "" = false).
  { apply String.eqb_neq. intros Hempty.
    pose proof (abspath_isabs cwd0 (dirname file) Hcwd) as Habs.
    unfold abspath in Habs. fold q in Habs. now rewrite Hempty in Habs. }
  rewrite Hne, normpath_abs by exact Hq.
  rewrite namei_normal_text by apply components_names.
  unfold q. rewrite head_components by exact Hcwd.
  now rewrite Hwalk, Hsearch.
Qed.

Lemma containing_directory_resolve cwd0 file dir :
  Fs.containing_directory fs cwd0 file = Some dir ->
  is_Some (Fs.resolve (fs_tree fs) dir).
Proof.
  unfold Fs.containing_directory.
  destruct (Fs.namei fs Fs.MAXSYMLINKS [] _) as [d|e]; [|discriminate].
  destruct (Fs.resolve (fs_tree fs) d) as [listing|] eqn:Hl; [|discriminate].
  destruct (_ && _); [|discriminate]. intros [= <-]. now rewrite Hl.
Qed.

(** *** What a load does *)

(** The process after a successful load that entered the directory at
    [dir] through the text [target]. *)
#[local] Abbreviation loaded target dir :=
  (Descriptor.setup fs
     (Descriptor.assign "requires" (PList [])
        {| cwd := Fs.path_of dir; globals := Descriptor.imported;
           trace := [Chdir target] |})).

Lemma load_Ok_inv cwd0 file p :
  Descriptor.load fs cwd0 file = Ok p ->
  "setuptools" ∈ fs_modules fs
  /\ exists dir,
       Fs.chdir fs (abspath cwd0 (dirname file)) = Fs.Reached dir
       /\ p = loaded (abspath cwd0 (dirname file)) dir.
Proof.
  unfold Descriptor.load, Descriptor.import_os,
    Descriptor.from_setuptools_import, Descriptor.os_chdir.
  cbn [mbind result_bind].
  destruct (bool_decide ("setuptools" ∈ fs_modules fs)) eqn:Hmod;
    [|discriminate].
  apply bool_decide_eq_true in Hmod.
  destruct (Fs.chdir fs _) as [dir|e]; [|discriminate].
  cbn [mbind result_bind mret result_ret]. intros [= <-].
  split; [exact Hmod|]. now exists dir.
Qed.

Lemma load_Ok_intro cwd0 file dir :
  "setuptools" ∈ fs_modules fs ->
  Fs.chdir fs (abspath cwd0 (dirname file)) = Fs.Reached dir ->
  Descriptor.load fs cwd0 file = Ok (loaded (abspath cwd0 (dirname file)) dir).
Proof.
  intros Hmod Hdir.
  unfold Descriptor.load, Descriptor.import_os,
    Descriptor.from_setuptools_import, Descriptor.os_chdir.
  cbn [mbind result_bind].
  rewrite (bool_decide_eq_true_2 _ Hmod), Hdir. reflexivity.
Qed.

Lemma listing_loaded target path dir here :
  Fs.chdir fs path = Fs.Reached dir ->
  Fs.resolve (fs_tree fs) dir = Some here ->
  Fs.lookup_dir fs (cwd (loaded target dir)) = Some here.
Proof.
  intros Hdir Hhere. cbn [cwd Descriptor.setup Descriptor.assign].
  rewrite (lookup_dir_path_of fs path) by exact Hdir.
  unfold Fs.lookup_dir. now rewrite Hdir.
Qed.

Lemma packages_loaded target path dir here :
  Fs.chdir fs path = Fs.Reached dir ->
  Fs.resolve (fs_tree fs) dir = Some here ->
  Descriptor.packages (Descriptor.setup_kwargs fs (loaded target dir))
  = Some (Setuptools.find_packages ["tests"] here).
Proof.
  intros Hdir Hhere.
  unfold Descriptor.packages, Descriptor.setup_kwargs,
    Descriptor.listing_here.
  rewrite (listing_loaded target path dir here) by assumption.
  cbn [default from_option id].
  change (Descriptor.kwarg "packages" _)
    with (Some (PList (PStr <$> Setuptools.find_packages ["tests"] here))).
  cbn [mbind option_bind]. apply as_str_list_strings.
Qed.

(** From a normal absolute directory, the empty path is the directory
    itself. *)
Lemma abspath_empty t :
  isabs t = true -> normpath t = t -> abspath t "" = t.
Proof.
  intros Habs Hfix.
  assert (Hne : t <> "") by (intros Ht; rewrite Ht in Habs; discriminate).
  unfold abspath at 1. change (isabs "") with false. cbv iota.
  unfold join. change (Str.startswith "/" "") with false. cbv iota.
  apply String.eqb_neq in Hne as Hneb. rewrite Hneb. cbn [orb].
  destruct (Str.endswith sep t) eqn:Hend.
  - now rewrite app_nil_r.
  - change ("/" +:+ "") with "/".
    rewrite <- Hfix at 2.
    rewrite !normpath_abs;
      [|exact Habs | now rewrite isabs_app].
    rewrite initial_slashes_app_open by assumption.
    now rewrite components_closed.
Qed.

(** Loading again from where a load ended, with a bare file name. *)
Lemma load_again cwd0 file dir :
  "setuptools" ∈ fs_modules fs ->
  Fs.chdir fs (abspath cwd0 (dirname file)) = Fs.Reached dir ->
  Descriptor.load fs (Fs.path_of dir) (basename file)
  = Ok (loaded (Fs.path_of dir) dir).
Proof.
  intros Hmod Hdir.
  destruct (chdir_physical fs _ _ Hdir) as [Hphys Hsearch].
  assert (Hhere : abspath (Fs.path_of dir) (dirname (basename file))
                  = Fs.path_of dir).
  { rewrite dirname_basename. apply abspath_empty; [apply path_of_isabs|].
    now apply (normpath_path_of fs). }
  pose proof (load_Ok_intro (Fs.path_of dir) (basename file) dir Hmod) as H.
  rewrite Hhere in H. apply H. now apply chdir_path_of.
Qed.

End DescriptorDirectory.

(** ** The working directory after a load *)

(** With setuptools installed and no package in the directory that
    [os.chdir] enters, the load goes through and [setup] gets an empty
    [packages] argument, on every file system. *)
Lemma load_of_nothing (fs : filesystem) cwd0 file here :
  "setuptools" ∈ fs_modules fs ->
  Fs.lookup_dir fs (Posixpath.abspath cwd0 (Posixpath.dirname file))
    = Some here ->
  Setuptools.find_packages ["tests"] here = [] ->
  exists p kwargs,
    Descriptor.load fs cwd0 file = Ok p
    /\ Descriptor.setup_calls (trace p) = [kwargs]
    /\ Descriptor.packages kwargs = Some [].
Proof.
  intros Hmod (dir & Hdir & Hhere)%lookup_dir_Some Hnone.
  pose proof (packages_loaded fs
                (Posixpath.abspath cwd0 (Posixpath.dirname file))
                _ dir here Hdir Hhere) as Hpackages.
  rewrite Hnone in Hpackages.
  eexists; eexists.
  split; [exact (load_Ok_intro fs cwd0 file dir Hmod Hdir)|].
  split; [reflexivity | exact Hpackages].
Qed.

(** C8: when the directory of the descriptor holds no importable package,
    discovery returns the empty list, loading the descriptor goes through,
    and [setup] is called once, with an empty [packages] argument.  The
    tree [root] stands for the machine where setuptools is installed (see
    [plain]); [load_of_nothing] is the same on every file system. *)
Theorem discovery_of_nothing_is_empty (root : list node) cwd0 file here :
  Fs.lookup_dir root (Posixpath.abspath cwd0 (Posixpath.dirname file))
    = Some here ->
  Setuptools.importable_packages here = [] ->
  Setuptools.find_packages ["tests"] here = []
  /\ exists p kwargs,
       Descriptor.load root cwd0 file = Ok p
       /\ Descriptor.setup_calls (trace p) = [kwargs]
       /\ Descriptor.packages kwargs = Some [].
Proof.
  intros Hhere Himp.
  assert (Hnone : Setuptools.find_packages ["tests"] here = []).
  { rewrite find_packages_tests_filter, Himp. reflexivity. }
  split; [exact Hnone|].
  apply (load_of_nothing root cwd0 file here); [|assumption..].
  apply list_elem_of_singleton. reflexivity.
Qed.

(** A project directory with a file and a plain directory only. *)
Lemma discovery_of_nothing_is_empty_witness :
  Setuptools.find_packages ["tests"]
    [File "setup.py"; Dir "docs" [File "a.md"]] = []
  /\ exists p kwargs,
       Descriptor.load Sample.root_without_packages "/work" "fireci/setup.py"
         = Ok p
       /\ Descriptor.setup_calls (trace p) = [kwargs]
       /\ Descriptor.packages kwargs = Some [].
Proof.
  apply (discovery_of_nothing_is_empty Sample.root_without_packages
           "/work" "fireci/setup.py").
  - reflexivity.
  - reflexivity.
Defined.




(** ** Loading, once more *)

(** X7: when [__file__] is absolute, the working directory of the caller
    plays no part: loading gives the same outcome, success or failure, from
    everywhere. *)
Theorem load_absolute_file root cwd1 cwd2 file :
  Posixpath.isabs file = true ->
  Descriptor.load root cwd1 file = Descriptor.load root cwd2 file.
Proof.
  intros Hfile. unfold Descriptor.load, Posixpath.abspath.
  rewrite dirname_isabs, Hfile.
  unfold Descriptor.import_os, Descriptor.from_setuptools_import.
  cbn [mbind result_bind].
  destruct (bool_decide _); [|reflexivity].
  cbn [mbind result_bind]. unfold Descriptor.os_chdir.
  destruct (Fs.chdir root _); reflexivity.
Qed.

Lemma load_absolute_file_witness :
  Descriptor.load Sample.root_with_project "/" "/repo/ci/fireci/setup.py"
  = Descriptor.load Sample.root_with_project "/repo/ci/fireci/tests"
      "/repo/ci/fireci/setup.py".
Proof.
  apply (load_absolute_file Sample.root_with_project "/"
           "/repo/ci/fireci/tests" "/repo/ci/fireci/setup.py").
  reflexivity.
Defined.





(** ** What is shipped *)

(** X13: whenever loading succeeds, the one [setup] call receives as
    [packages] what discovery finds in the directory of the descriptor, and
    neither [tests] nor [ez_setup] is among them. *)
Theorem load_never_ships_tests root cwd0 file p :
  Descriptor.load root cwd0 file = Ok p ->
  exists here packages,
    Fs.lookup_dir root (cwd p) = Some here
    /\ Descriptor.packages <$> Descriptor.setup_calls (trace p)
       = [Some packages]
    /\ packages = Setuptools.find_packages ["tests"] here
    /\ ("tests" ∉ packages) /\ ("ez_setup" ∉ packages).
Proof.
  intros (Hmod & dir & Hdir & ->)%load_Ok_inv.
  destruct (chdir_physical root _ _ Hdir) as [Hphys _].
  destruct (physical_resolve root dir Hphys) as [here Hhere].
  set (target := Posixpath.abspath cwd0 (Posixpath.dirname file)) in *.
  exists here, (Setuptools.find_packages ["tests"] here).
  split; [exact (listing_loaded root target target dir here Hdir Hhere)|].
  split; [|split; [reflexivity|]].
  - cbn [trace Descriptor.setup Descriptor.assign app
         Descriptor.setup_calls flat_map fmap list_fmap].
    f_equal.
    exact (packages_loaded root target target dir here Hdir Hhere).
  - split; intros [Hkept _]%find_packages_tests_elem;
      vm_compute in Hkept; discriminate.
Qed.

Lemma load_never_ships_tests_witness :
  exists p,
    Descriptor.load Sample.root_with_project "/repo" "ci/fireci/setup.py"
      = Ok p
    /\ exists here packages,
         Fs.lookup_dir Sample.root_with_project (cwd p) = Some here
         /\ Descriptor.packages <$> Descriptor.setup_calls (trace p)
            = [Some packages]
         /\ packages = Setuptools.find_packages ["tests"] here
         /\ ("tests" ∉ packages) /\ ("ez_setup" ∉ packages).
Proof.
  eexists. split; [reflexivity|].
  apply (load_never_ships_tests Sample.root_with_project
           "/repo" "ci/fireci/setup.py").
  reflexivity.
Defined.
